(** * snakeoil.osutils: path normalisation, directory provisioning,
      advisory file locks and the access-check fallback

    A shallow embedding of [src/snakeoil/osutils/__init__.py].  Python
    byte strings are [string], Python integers are [Z], the operating
    system is an abstract interface ([Posix]) whose calls either succeed
    or fail with an errno, and Python exceptions are explicit outcomes. *)

From Stdlib Require Import ZArith String Ascii List Bool Lia.
From stdpp Require Import base tactics option list gmap strings.

Import ListNotations.
Local Open Scope string_scope.
Local Open Scope Z_scope.

(** ** Python string primitives used by the module *)

Module PyStr.

(** [s.startswith(p)] *)
Definition startswith (s p : string) : bool := String.prefix p s.

(** [s.endswith(c)] for a one-character suffix. *)
Fixpoint endswith_char (s : string) (c : ascii) : bool :=
  match s with
  | EmptyString => false
  | String a EmptyString => Ascii.eqb a c
  | String _ s' => endswith_char s' c
  end.

(** [s.split(d)] for a one-character separator: one more piece than
    there are separators, empty pieces kept. *)
Fixpoint split (s : string) (d : ascii) : list string :=
  match s with
  | EmptyString => [EmptyString]
  | String c s' =>
      if Ascii.eqb c d then EmptyString :: split s' d
      else match split s' d with
           | [] => [String c EmptyString]
           | piece :: pieces => String c piece :: pieces
           end
  end.

(** [d.join(l)] *)
Definition join (d : string) (l : list string) : string := String.concat d l.

(** [s[n:]] *)
Fixpoint slice_from (n : nat) (s : string) : string :=
  match n, s with
  | O, _ => s
  | S n', String _ s' => slice_from n' s'
  | S _, EmptyString => EmptyString
  end.

(** [c * n] for a one-character string [c]. *)
Fixpoint repeat_char (c : ascii) (n : nat) : string :=
  match n with
  | O => EmptyString
  | S n' => String c (repeat_char c n')
  end.

(** No occurrence of the character [d] in [s]. *)
Fixpoint free_of (d : ascii) (s : string) : bool :=
  match s with
  | EmptyString => true
  | String c s' => negb (Ascii.eqb c d) && free_of d s'
  end.

End PyStr.

(** ** [os.path] functions that the module calls

    These belong to the Python standard library ([posixpath.py]), not to
    the repository; they are embedded from the library's code, statement
    by statement, because [native_normpath] and [ensure_dirs] are defined
    through them. *)

Module OsPath.
Import PyStr.

Definition sep : ascii := "/"%char.

(** Body of the [for comp in comps] loop of [posixpath.normpath]. *)
Definition normpath_step (initial_slashes : nat) (new_comps : list string)
    (comp : string) : list string :=
  if String.eqb comp "" || String.eqb comp "." then new_comps
  else if negb (String.eqb comp "..")
          || (Nat.eqb initial_slashes 0 && bool_decide (new_comps = []))
          || (negb (bool_decide (new_comps = []))
              && String.eqb (List.last new_comps "") "..")
  then new_comps ++ [comp]
  else if negb (bool_decide (new_comps = [])) then List.removelast new_comps
  else new_comps.

(** The value [posixpath.normpath] gives its variable
    [initial_slashes]: POSIX allows one or two initial slashes, but
    treats three or more as a single slash. *)
Definition initial_slashes (path : string) : nat :=
  if startswith path "/" then
    if startswith path "//" && negb (startswith path "///") then 2%nat
    else 1%nat
  else 0%nat.

(** [posixpath.normpath] *)
Definition normpath (path : string) : string :=
  if String.eqb path "" then "."
  else
    let initial_slashes := initial_slashes path in
    let comps := split path sep in
    let new_comps := fold_left (normpath_step initial_slashes) comps [] in
    let path := join "/" new_comps in
    let path :=
      if Nat.eqb initial_slashes 0 then path
      else repeat_char sep initial_slashes ++ path in
    if String.eqb path "" then "." else path.

(** [posixpath.join] with one trailing argument. *)
Definition join2 (a b : string) : string :=
  if startswith b "/" then b
  else if String.eqb a "" || endswith_char a sep then a ++ b
  else a ++ "/" ++ b.

(** [posixpath.isabs] *)
Definition isabs (s : string) : bool := startswith s "/".

End OsPath.

(** ** [native_normpath] *)

Definition native_normpath (mypath : string) : string :=
  let newpath := OsPath.normpath mypath in
  if PyStr.startswith newpath "//" then PyStr.slice_from 1 newpath
  else newpath.

(** The module binds [normpath] and [join] to the native versions when the
    compiled extension [_posix] is not importable (lines 337-348); the
    native versions are the ones embedded here. *)
Definition normpath := native_normpath.
Definition join := OsPath.join2.


(** ** Constants of the host platform (POSIX / Linux values) *)

Module Const.
Definition EINTR : Z := 4.
Definition EBADF : Z := 9.
Definition EAGAIN : Z := 11.
Definition EACCES : Z := 13.
Definition EEXIST : Z := 17.
Definition ENOENT : Z := 2.
Definition ENOTDIR : Z := 20.

(** [stat.S_ISGID] = 02000, [S_IFMT] = 0170000, [S_IFDIR] = 0040000,
    [S_IFREG] = 0100000 *)
Definition S_ISGID : Z := 1024.
Definition S_IFMT : Z := 61440.
Definition S_IFDIR : Z := 16384.
Definition S_IFREG : Z := 32768.

(** The octal literals of the source: 0300, 0700, 0777, 07777. *)
Definition o300 : Z := 192.
Definition o700 : Z := 448.
Definition o777 : Z := 511.
Definition o7777 : Z := 4095.

Definition F_OK : Z := 0.
Definition X_OK : Z := 1.
Definition W_OK : Z := 2.
Definition R_OK : Z := 4.
Definition O_CREAT : Z := 64.

Definition LOCK_SH : Z := 1.
Definition LOCK_EX : Z := 2.
Definition LOCK_NB : Z := 4.
Definition LOCK_UN : Z := 8.
End Const.

(** [stat.S_ISDIR] *)
Definition S_ISDIR (mode : Z) : bool :=
  Z.eqb (Z.land mode Const.S_IFMT) Const.S_IFDIR.

(** Truth value of a Python integer. *)
Definition truthy (n : Z) : bool := negb (Z.eqb n 0).

(** ** Exceptions, system calls and the machine state *)

(** The fields of [os.stat_result] that the module reads. *)
Record stat_result := mk_stat { st_mode : Z; st_uid : Z; st_gid : Z }.

(** The two [EnvironmentError] subclasses raised by system calls. *)
Inductive env_error :=
| OSError (errno : Z)
| IOError (errno : Z).

(** Exceptions that can leave a function of the module: an
    [EnvironmentError], or one of the two [LockException] subclasses with
    their [(path, reason)] fields. *)
Inductive exn :=
| EnvironmentError (e : env_error)
| NonExistant (path : string) (reason : option env_error)
| GenericFailed (path : string) (reason : env_error).

Inductive outcome (A : Type) :=
| Returned (a : A)
| Raised (e : exn).
Arguments Returned {A} a.
Arguments Raised {A} e.

(** Result of one system call: a value, or an errno. *)
Inductive sysret (A : Type) :=
| Done (a : A)
| Errno (e : Z).
Arguments Done {A} a.
Arguments Errno {A} e.

Inductive syscall :=
| Stat (path : string)
| Lstat (path : string)
| Mkdir (path : string) (mode : Z)
| Chmod (path : string) (mode : Z)
| Chown (path : string) (uid gid : Z)
| Umask (mask : Z)
| Getcwd
| Getuid
| Getgroups
| Open (path : string) (flags : Z)
| Flock (fd : Z) (op : Z).

(** One entry of the system-call trace: the call and the errno it failed
    with, if it failed. *)
Record event := mk_event { ev_call : syscall; ev_errno : option Z }.

(** What the module needs from the operating system.  Every call may
    change the world (other processes run in between).  A call either
    succeeds or fails with an errno: the interface describes the calls
    as the kernel answers them, for arguments the [os] wrappers pass on
    (integers in the C range, paths without a NUL character).  The
    [OverflowError] or [TypeError] a wrapper raises for other arguments
    is outside it, and no statement below is about those. *)
Class Posix (W : Type) := {
  os_stat : string -> W -> sysret stat_result * W;
  os_lstat : string -> W -> sysret stat_result * W;
  os_mkdir : string -> Z -> W -> sysret unit * W;
  os_chmod : string -> Z -> W -> sysret unit * W;
  os_chown : string -> Z -> Z -> W -> sysret unit * W;
  os_umask : Z -> W -> Z * W;
  os_getcwd : W -> sysret string * W;
  os_getuid : W -> Z * W;
  os_getgroups : W -> list Z * W;
  os_open : string -> Z -> W -> sysret Z * W;
  os_flock : Z -> Z -> W -> sysret unit * W
}.

Record machine (W : Type) := mk_machine { world : W; trace : list event }.
Arguments mk_machine {W} world trace.
Arguments world {W} m.
Arguments trace {W} m.

(** Early exit from a loop or a block: carry on with the locals, or
    leave the function with a value. *)
Inductive flow (L R : Type) :=
| Continue (l : L)
| Return (r : R).
Arguments Continue {L R} l.
Arguments Return {L R} r.

Section Interp.
Context {W : Type} {P : Posix W}.

Definition M (A : Type) : Type := machine W -> outcome A * machine W.

Definition ret {A} (a : A) : M A := fun m => (Returned a, m).

Definition raise {A} (e : exn) : M A := fun m => (Raised e, m).

Definition bind {A B} (c : M A) (k : A -> M B) : M B :=
  fun m =>
    match c m with
    | (Returned a, m') => k a m'
    | (Raised e, m') => (Raised e, m')
    end.

(** [try: body / except OSError, e: handler e] *)
Definition try_except_OSError {A} (body : M A) (handler : Z -> M A) : M A :=
  fun m =>
    match body m with
    | (Raised (EnvironmentError (OSError e)), m') => handler e m'
    | r => r
    end.

(** [try: body / except IOError, e: handler e] *)
Definition try_except_IOError {A} (body : M A) (handler : Z -> M A) : M A :=
  fun m =>
    match body m with
    | (Raised (EnvironmentError (IOError e)), m') => handler e m'
    | r => r
    end.

(** [try: body / except EnvironmentError: handler]; [OSError] and
    [IOError] are its subclasses. *)
Definition try_except_EnvironmentError {A} (body : M A) (handler : M A) : M A :=
  fun m =>
    match body m with
    | (Raised (EnvironmentError _), m') => handler m'
    | r => r
    end.

(** [try: x = body / except OSError: handler / else: orelse x] *)
Definition try_except_OSError_else {A B} (body : M A) (handler : M B)
    (orelse : A -> M B) : M B :=
  fun m =>
    match body m with
    | (Returned a, m') => orelse a m'
    | (Raised (EnvironmentError (OSError _)), m') => handler m'
    | (Raised e, m') => (Raised e, m')
    end.

(** [try: body / finally: cleanup] *)
Definition try_finally {A} (body : M A) (cleanup : M unit) : M A :=
  fun m =>
    match body m with
    | (r, m') =>
        match cleanup m' with
        | (Returned _, m'') => (r, m'')
        | (Raised e, m'') => (Raised e, m'')
        end
    end.

(** A system call: run it on the world, log it, raise on an errno. *)
Definition syscall_raising {A} (c : syscall) (f : W -> sysret A * W)
    (mk : Z -> env_error) : M A :=
  fun m =>
    match f (world m) with
    | (Done a, w') =>
        (Returned a, mk_machine w' (trace m ++ [mk_event c None]))
    | (Errno e, w') =>
        (Raised (EnvironmentError (mk e)), mk_machine w' (trace m ++ [mk_event c (Some e)]))
    end.

(** A system call that cannot fail. *)
Definition syscall_total {A} (c : syscall) (f : W -> A * W) : M A :=
  fun m =>
    match f (world m) with
    | (a, w') => (Returned a, mk_machine w' (trace m ++ [mk_event c None]))
    end.

Definition sys_stat (p : string) : M stat_result :=
  syscall_raising (Stat p) (os_stat p) OSError.
Definition sys_lstat (p : string) : M stat_result :=
  syscall_raising (Lstat p) (os_lstat p) OSError.
Definition sys_mkdir (p : string) (mode : Z) : M unit :=
  syscall_raising (Mkdir p mode) (os_mkdir p mode) OSError.
Definition sys_chmod (p : string) (mode : Z) : M unit :=
  syscall_raising (Chmod p mode) (os_chmod p mode) OSError.
Definition sys_chown (p : string) (uid gid : Z) : M unit :=
  syscall_raising (Chown p uid gid) (os_chown p uid gid) OSError.
Definition sys_umask (mask : Z) : M Z :=
  syscall_total (Umask mask) (os_umask mask).
Definition sys_getcwd : M string :=
  syscall_raising Getcwd os_getcwd OSError.
Definition sys_getuid : M Z := syscall_total Getuid os_getuid.
Definition sys_getgroups : M (list Z) := syscall_total Getgroups os_getgroups.
Definition sys_open (p : string) (flags : Z) : M Z :=
  syscall_raising (Open p flags) (os_open p flags) OSError.
(** [fcntl.flock] raises [IOError]. *)
Definition sys_flock (fd op : Z) : M unit :=
  syscall_raising (Flock fd op) (os_flock fd op) IOError.

End Interp.

Declare Scope py_scope.
Delimit Scope py_scope with py.
Notation "x <- c ;; k" := (bind c (fun x => k))
  (at level 100, c at next level, right associativity) : py_scope.
Notation "c ;; k" := (bind c (fun _ => k))
  (at level 100, right associativity) : py_scope.
(** Bind that passes an early [Return] through. *)
Notation "x <-! c ;; k" :=
  (bind c (fun r => match r with
                    | Return b => ret (Return b)
                    | Continue x => k
                    end))
  (at level 100, c at next level, right associativity) : py_scope.
Local Open Scope py_scope.

(** ** [ensure_dirs] *)

(** The local variables of [ensure_dirs] that the segment loop updates.
    [sticky_parent] is [False] (0) or the integer [st.st_gid & S_ISGID]. *)
Record frame := mk_frame {
  base : string;
  resets : list (string * Z);
  sticky_parent : Z
}.

Section EnsureDirs.
Context {W : Type} {P : Posix W}.

Definition _safe_mkdir (path : string) (mode : Z) : M bool :=
  try_except_OSError
    (sys_mkdir path mode ;; ret true)
    (fun errno =>
       (* if it exists already and is a dir, non issue. *)
       if negb (Z.eqb errno Const.EEXIST) then ret false
       else
         st <- sys_stat path ;;
         if negb (S_ISDIR (st_mode st)) then ret false
         else ret true).

(** [os.path.abspath] *)
Definition abspath_os (path : string) : M string :=
  if negb (OsPath.isabs path) then
    cwd <- sys_getcwd ;;
    ret (OsPath.normpath (OsPath.join2 cwd path))
  else ret (OsPath.normpath path).

(** One iteration of [for directory in apath.split(os.path.sep)]. *)
Definition walk_segment (gid uid mode : Z) (force_temp_perms : bool)
    (apath : string) (f : frame) (directory : string)
    : M (flow frame bool) :=
  let base := join (base f) directory in
  try_except_OSError
    (st <- sys_stat base ;;
     if negb (S_ISDIR (st_mode st)) then ret (Return false)
     else
       (* if it's a subdir, we need +wx at least *)
       if negb (String.eqb apath base) then
         resets' <-!
           (if negb (Z.eqb (Z.land (st_mode st) Const.o300) Const.o300) then
              _ <-! try_except_OSError
                      (sys_chmod base (Z.lor (st_mode st) Const.o300) ;;
                       ret (Continue tt))
                      (fun _ => ret (Return false)) ;;
              ret (Continue (resets f ++ [(base, st_mode st)])%list)
            else ret (Continue (resets f))) ;;
         ret (Continue (mk_frame base resets'
                          (Z.land (st_gid st) Const.S_ISGID)))
       else ret (Continue (mk_frame base (resets f) (sticky_parent f))))
    (fun _ =>
       (* nothing exists. *)
       try_except_OSError
         (if force_temp_perms then
            ok <- _safe_mkdir base Const.o700 ;;
            if negb ok then ret (Return false)
            else ret (Continue (mk_frame base (resets f ++ [(base, mode)])%list
                                  (sticky_parent f)))
          else
            ok <- _safe_mkdir base mode ;;
            if negb ok then ret (Return false)
            else
              let resets' :=
                if String.eqb base apath && truthy (sticky_parent f)
                then (resets f ++ [(base, mode)])%list
                else resets f in
              (if negb (Z.eqb gid (-1)) || negb (Z.eqb uid (-1))
               then sys_chown base uid gid else ret tt) ;;
              ret (Continue (mk_frame base resets' (sticky_parent f))))
         (fun _ => ret (Return false))).

(** The [for] loop over the segments, left at the first [return]. *)
Fixpoint walk (gid uid mode : Z) (force_temp_perms : bool) (apath : string)
    (segments : list string) (f : frame) : M (flow frame bool) :=
  match segments with
  | [] => ret (Continue f)
  | directory :: rest =>
      f' <-! walk_segment gid uid mode force_temp_perms apath f directory ;;
      walk gid uid mode force_temp_perms apath rest f'
  end.

(** [for base, m in reversed(resets): os.chmod(base, m)]; the loop
    rebinds the function's [base], whose last value is returned. *)
Fixpoint drain (pending : list (string * Z)) (base : string) : M string :=
  match pending with
  | [] => ret base
  | (b, m) :: rest => sys_chmod b m ;; drain rest b
  end.

(** Lines 116-153: the locals are set up and the segments walked from
    the root ([base = os.path.sep]). *)
Definition walk_path (path : string) (gid uid mode : Z)
    : M (flow frame bool) :=
  (* if the dir perms would lack +wx, we have to force it *)
  let force_temp_perms := negb (Z.eqb (Z.land mode Const.o300) Const.o300) in
  abs <- abspath_os path ;;
  let apath := normpath abs in
  walk gid uid mode force_temp_perms apath (PyStr.split apath OsPath.sep)
    (mk_frame (String OsPath.sep "") [] 0).

(** Lines 155-161: the recorded resets are applied, last recorded
    first, then the ownership. *)
Definition drain_resets (gid uid : Z) (f : frame) : M (flow unit bool) :=
  try_except_OSError
    (base' <- drain (rev (resets f)) (base f) ;;
     (if negb (Z.eqb uid (-1)) || negb (Z.eqb gid (-1))
      then sys_chown base' uid gid else ret tt) ;;
     ret (Continue tt))
    (fun _ => ret (Return false)).

(** The [except OSError] branch: the target could not be stat'ed. *)
Definition create_dirs (path : string) (gid uid mode : Z) : M bool :=
  um <- sys_umask 0 ;;
  r <- try_finally
         (f <-! walk_path path gid uid mode ;; drain_resets gid uid f)
         (sys_umask um ;; ret tt) ;;
  match r with
  | Return b => ret b
  | Continue _ => ret true
  end.

(** The [else] branch: the target exists; ownership and mode are
    adjusted in place. *)
Definition adjust_existing (path : string) (gid uid mode : Z)
    (minimal : bool) (st : stat_result) : M bool :=
  try_except_OSError
    ((if (negb (Z.eqb gid (-1)) && negb (Z.eqb gid (st_gid st)))
         || (negb (Z.eqb uid (-1)) && negb (Z.eqb uid (st_uid st)))
      then sys_chown path uid gid else ret tt) ;;
     (if minimal then
        if negb (Z.eqb mode (Z.land (st_mode st) mode))
        then sys_chmod path (Z.lor (st_mode st) mode) else ret tt
      else if negb (Z.eqb mode (Z.land (st_mode st) Const.o7777))
        then sys_chmod path mode else ret tt) ;;
     ret true)
    (fun _ => ret false).

Definition ensure_dirs (path : string) (gid uid mode : Z) (minimal : bool)
    : M bool :=
  try_except_OSError_else
    (sys_stat path)
    (create_dirs path gid uid mode)
    (adjust_existing path gid uid mode minimal).

End EnsureDirs.

(** ** [FsLock] *)

Record FsLock := mk_FsLock {
  lock_path : string;
  lock_fd : option Z;
  lock_create : bool
}.

Section Lock.
Context {W : Type} {P : Posix W}.

(** [os.path.exists] *)
Definition path_exists (path : string) : M bool :=
  try_except_OSError (sys_stat path ;; ret true) (fun _ => ret false).

(** [FsLock.__init__] *)
Definition FsLock_init (path : string) (create : bool) : M FsLock :=
  let self := mk_FsLock path None create in
  if negb create then
    e <- path_exists path ;;
    if negb e then raise (NonExistant path None) else ret self
  else ret self.

(** [FsLock._acquire_fd]; returns the updated handle. *)
Definition _acquire_fd (self : FsLock) : M FsLock :=
  if lock_create self then
    try_except_OSError
      (fd <- sys_open (lock_path self) (Z.lor Const.R_OK Const.O_CREAT) ;;
       ret (mk_FsLock (lock_path self) (Some fd) (lock_create self)))
      (fun oe => raise (GenericFailed (lock_path self) (OSError oe)))
  else
    try_except_OSError
      (fd <- sys_open (lock_path self) Const.R_OK ;;
       ret (mk_FsLock (lock_path self) (Some fd) (lock_create self)))
      (fun oe => raise (NonExistant (lock_path self) (Some (OSError oe)))).

(** [FsLock._enact_change]; returns the result and the updated handle.
    A descriptor can only be [None] before the first open, so the
    [flock] call reads it after [_acquire_fd]. *)
Definition _enact_change (self : FsLock) (flags : Z) (blocking : bool)
    : M (bool * FsLock) :=
  self <- (match lock_fd self with
           | None => _acquire_fd self
           | Some _ => ret self
           end) ;;
  let fd := default 0 (lock_fd self) in
  (* we do it this way, due to the fact try/except is a bit of a hit *)
  if negb blocking then
    try_except_IOError
      (sys_flock fd (Z.lor flags Const.LOCK_NB) ;; ret (true, self))
      (fun ie =>
         if Z.eqb ie Const.EAGAIN then ret (false, self)
         else raise (GenericFailed (lock_path self) (IOError ie)))
  else
    sys_flock fd flags ;; ret (true, self).

Definition acquire_write_lock (self : FsLock) (blocking : bool)
    : M (bool * FsLock) :=
  _enact_change self Const.LOCK_EX blocking.

Definition acquire_read_lock (self : FsLock) (blocking : bool)
    : M (bool * FsLock) :=
  _enact_change self Const.LOCK_SH blocking.

(** The two release methods discard the result of [_enact_change]. *)
Definition release_write_lock (self : FsLock) : M FsLock :=
  r <- _enact_change self Const.LOCK_UN false ;; ret (snd r).

Definition release_read_lock (self : FsLock) : M FsLock :=
  r <- _enact_change self Const.LOCK_UN false ;; ret (snd r).

End Lock.

(** ** [fallback_access] *)

Section Access.
Context {W : Type} {P : Posix W}.

Definition fallback_access (path : string) (mode : Z) : M bool :=
  r <- try_except_EnvironmentError
         (st <- sys_lstat path ;; ret (Continue st))
         (ret (Return false)) ;;
  match r with
  | Return b => ret b
  | Continue st =>
      if Z.eqb mode Const.F_OK then ret true
      else
        myuid <- sys_getuid ;;
        (* if we're root... pull out X_OK and check that alone. *)
        if Z.eqb myuid 0 then
          let mode := Z.land mode Const.X_OK in
          if negb (truthy mode) then
            (* w/r are always True for root, so return up front *)
            ret true
          else ret (truthy (Z.land (st_mode st) 73))
        else
          mygroups <- sys_getgroups ;;
          if Z.eqb myuid (st_uid st) then
            (* shift to the user octet, filter to 3 bits, verify intersect. *)
            ret (Z.eqb mode (Z.land mode (Z.land (Z.shiftr (st_mode st) 6) 7)))
          else if existsb (Z.eqb (st_gid st)) mygroups then
            ret (Z.eqb mode (Z.land mode (Z.land (Z.shiftr (st_mode st) 3) 7)))
          else
            ret (Z.eqb mode (Z.land mode (Z.land (st_mode st) 7)))
  end.

End Access.

(** ** A small in-memory filesystem implementing [Posix]

    Used to run the functions on concrete inputs.  Paths are looked up
    verbatim in a finite map, the process may do anything the inode
    table allows (no permission checks), and there are no symlinks. *)

Module MemFs.

Record inode := mk_inode { i_mode : Z; i_uid : Z; i_gid : Z }.

Record t := mk {
  files : gmap string inode;
  mask : Z;
  cwd : string;
  uid : Z;
  gid : Z;
  groups : list Z;
  fds : list (Z * string);      (* open descriptors and their paths *)
  locks : list (Z * Z)          (* descriptor, LOCK_SH or LOCK_EX *)
}.

Definition with_files (w : t) (fs : gmap string inode) : t :=
  mk fs (mask w) (cwd w) (uid w) (gid w) (groups w) (fds w) (locks w).

Definition with_locks (w : t) (l : list (Z * Z)) : t :=
  mk (files w) (mask w) (cwd w) (uid w) (gid w) (groups w) (fds w) l.

(** Directory part of a normalised absolute path. *)
Definition parent (p : string) : string :=
  match PyStr.join "/" (removelast (PyStr.split p OsPath.sep)) with
  | EmptyString => "/"
  | d => d
  end.

Definition stat (p : string) (w : t) : sysret stat_result * t :=
  match files w !! p with
  | Some i => (Done (mk_stat (i_mode i) (i_uid i) (i_gid i)), w)
  | None => (Errno Const.ENOENT, w)
  end.

Definition mkdir (p : string) (mode : Z) (w : t) : sysret unit * t :=
  match files w !! p with
  | Some _ => (Errno Const.EEXIST, w)
  | None =>
      match files w !! parent p with
      | None => (Errno Const.ENOENT, w)
      | Some d =>
          if negb (S_ISDIR (i_mode d)) then (Errno Const.ENOTDIR, w)
          else
            let perms := Z.land (Z.land mode (Z.lnot (mask w))) Const.o7777 in
            let setgid := Z.land (i_mode d) Const.S_ISGID in
            let g := if truthy setgid then i_gid d else gid w in
            let i := mk_inode (Z.lor Const.S_IFDIR (Z.lor perms setgid))
                       (uid w) g in
            (Done tt, with_files w (<[p := i]> (files w)))
      end
  end.

Definition chmod (p : string) (mode : Z) (w : t) : sysret unit * t :=
  match files w !! p with
  | None => (Errno Const.ENOENT, w)
  | Some i =>
      let i' := mk_inode (Z.lor (Z.land (i_mode i) Const.S_IFMT)
                            (Z.land mode Const.o7777))
                  (i_uid i) (i_gid i) in
      (Done tt, with_files w (<[p := i']> (files w)))
  end.

Definition chown (p : string) (u g : Z) (w : t) : sysret unit * t :=
  match files w !! p with
  | None => (Errno Const.ENOENT, w)
  | Some i =>
      let i' := mk_inode (i_mode i)
                  (if Z.eqb u (-1) then i_uid i else u)
                  (if Z.eqb g (-1) then i_gid i else g) in
      (Done tt, with_files w (<[p := i']> (files w)))
  end.

Definition umask (new : Z) (w : t) : Z * t :=
  (mask w,
   mk (files w) (Z.land new Const.o777) (cwd w) (uid w) (gid w) (groups w)
      (fds w) (locks w)).

Definition fresh_fd (w : t) : Z := 3 + Z.of_nat (length (fds w)).

Definition open (p : string) (flags : Z) (w : t) : sysret Z * t :=
  let fd := fresh_fd w in
  match files w !! p with
  | Some _ =>
      (Done fd, mk (files w) (mask w) (cwd w) (uid w) (gid w) (groups w)
                   ((fd, p) :: fds w) (locks w))
  | None =>
      if Z.eqb (Z.land flags Const.O_CREAT) 0 then (Errno Const.ENOENT, w)
      else
        match files w !! parent p with
        | None => (Errno Const.ENOENT, w)
        | Some d =>
            if negb (S_ISDIR (i_mode d)) then (Errno Const.ENOTDIR, w)
            else
              let perms := Z.land Const.o777 (Z.lnot (mask w)) in
              let i := mk_inode (Z.lor Const.S_IFREG perms) (uid w) (gid w) in
              (Done fd, mk (<[p := i]> (files w)) (mask w) (cwd w) (uid w)
                           (gid w) (groups w) ((fd, p) :: fds w) (locks w))
        end
  end.

Definition path_of (fd : Z) (w : t) : option string :=
  snd <$> List.find (fun e => Z.eqb (fst e) fd) (fds w).

(** Does another descriptor on the same file hold a lock that excludes
    a request of kind [kind]? *)
Definition conflicts (fd : Z) (p : string) (kind : Z) (w : t) : bool :=
  existsb
    (fun l =>
       negb (Z.eqb (fst l) fd)
       && bool_decide (path_of (fst l) w = Some p)
       && (Z.eqb kind Const.LOCK_EX || Z.eqb (snd l) Const.LOCK_EX))
    (locks w).

Definition unlocked (fd : Z) (w : t) : list (Z * Z) :=
  List.filter (fun l => negb (Z.eqb (fst l) fd)) (locks w).

(** A blocking request that cannot be granted is reported as
    interrupted ([EINTR]); nothing in this model ever wakes it. *)
Definition flock (fd op : Z) (w : t) : sysret unit * t :=
  match path_of fd w with
  | None => (Errno Const.EBADF, w)
  | Some p =>
      let nb := truthy (Z.land op Const.LOCK_NB) in
      let kind := Z.land op (Z.lnot Const.LOCK_NB) in
      if Z.eqb kind Const.LOCK_UN then (Done tt, with_locks w (unlocked fd w))
      else if Z.eqb kind Const.LOCK_SH || Z.eqb kind Const.LOCK_EX then
        if conflicts fd p kind w
        then (Errno (if nb then Const.EAGAIN else Const.EINTR), w)
        else (Done tt, with_locks w ((fd, kind) :: unlocked fd w))
      else (Errno 22, w)
  end.

#[global] Instance posix : Posix t := {
  os_stat := stat;
  os_lstat := stat;
  os_mkdir := mkdir;
  os_chmod := chmod;
  os_chown := chown;
  os_umask := umask;
  os_getcwd := fun w => (Done (cwd w), w);
  os_getuid := fun w => (uid w, w);
  os_getgroups := fun w => (groups w, w);
  os_open := open;
  os_flock := flock
}.

Definition dir (mode u g : Z) : inode := mk_inode (Z.lor Const.S_IFDIR mode) u g.
Definition reg (mode u g : Z) : inode := mk_inode (Z.lor Const.S_IFREG mode) u g.

(** A world with the given inodes, umask 022, run in [/] by the user
    [u] whose only group is [g]; the trace starts empty. *)
Definition boot (u g : Z) (entries : list (string * inode)) : machine t :=
  mk_machine (mk (list_to_map entries) 18 "/" u g [g] [] []) [].

(** Mode bits of a path in a world, as [stat] reports them. *)
Definition mode_of (p : string) (m : machine t) : option Z :=
  i_mode <$> (files (world m) !! p).

End MemFs.

(** ** Vocabulary for the statements about paths *)

Module NormalForm.
Import PyStr.

(** A proper path component: not empty, not ".", free of separators. *)
Definition component (c : string) : Prop :=
  c <> "" /\ c <> "." /\ free_of OsPath.sep c = true.

(** Component lists that [posixpath.normpath] can produce, built the
    way the loop grows them: ".." only at the front of a relative path. *)
Inductive normal (rooted : bool) : list string -> Prop :=
| normal_nil : normal rooted []
| normal_name acc c :
    normal rooted acc -> component c -> c <> ".." ->
    normal rooted (acc ++ [c])
| normal_up acc :
    rooted = false -> normal rooted acc ->
    (acc = [] \/ List.last acc "" = "..") ->
    normal rooted (acc ++ [".."]).

(** The string [posixpath.normpath] assembles from the number of
    leading slashes and the components. *)
Definition render (initial_slashes : nat) (comps : list string) : string :=
  let path := join "/" comps in
  let path :=
    if Nat.eqb initial_slashes 0 then path
    else repeat_char OsPath.sep initial_slashes ++ path in
  if String.eqb path "" then "." else path.

End NormalForm.

(** ** Vocabulary for the statements about traces and mode bits *)

(** The trace of applying each pending reset with a successful [chmod]. *)
Definition chmod_events (pending : list (string * Z)) : list event :=
  map (fun r => mk_event (Chmod (fst r) (snd r)) None) pending.

Definition is_chmod (ev : event) : bool :=
  match ev_call ev with
  | Chmod _ _ => true
  | _ => false
  end.

(** Every bit of [a] is a bit of [b]. *)
Definition bits_subset (a b : Z) : Prop :=
  forall i, 0 <= i -> Z.testbit a i = true -> Z.testbit b i = true.

(** The three permission bits of a mode found [shift] bits up: 6 for the
    owner, 3 for the group, 0 for the others. *)
Definition triplet (mode shift : Z) : Z := Z.land (Z.shiftr mode shift) 7.

(** One of the three execute bits (others, group, owner) is set. *)
Definition any_execute_bit (mode : Z) : Prop :=
  Z.testbit mode 0 = true \/ Z.testbit mode 3 = true \/ Z.testbit mode 6 = true.

(** The access rule in the words of the specification: what is granted
    to a process with effective uid [euid] and groups [egroups] that
    requests the bits [requested] on a file with metadata [st]. *)
Definition access_rule (st : stat_result) (requested euid : Z)
    (egroups : list Z) (granted : bool) : Prop :=
  (requested = 0 -> granted = true)
  /\ (requested <> 0 ->
      (euid = 0 ->
       (granted = true <->
        (Z.testbit requested 0 = true -> any_execute_bit (st_mode st))))
      /\ (euid <> 0 -> euid = st_uid st ->
          (granted = true <-> bits_subset requested (triplet (st_mode st) 6)))
      /\ (euid <> 0 -> euid <> st_uid st -> In (st_gid st) egroups ->
          (granted = true <-> bits_subset requested (triplet (st_mode st) 3)))
      /\ (euid <> 0 -> euid <> st_uid st -> ~ In (st_gid st) egroups ->
          (granted = true <-> bits_subset requested (triplet (st_mode st) 0)))).

(** The file of the specification's example: owned by uid 1000, group
    50, mode 0640, seen by a process with the given uid and group. *)
Definition example_0640 (u g : Z) : machine MemFs.t :=
  MemFs.boot u g [("/", MemFs.dir 493 0 0);
                  ("/data", MemFs.reg 416 1000 50)].

(** Worlds for the lock examples: a root directory with a lock file,
    and the same world after one handle has taken the write lock and a
    second handle has opened the file and been refused. *)
Definition lock_world : machine MemFs.t :=
  MemFs.boot 0 0 [("/", MemFs.dir 493 0 0); ("/lock", MemFs.reg 420 0 0)].

Definition contended_world : machine MemFs.t :=
  let m1 := snd (acquire_write_lock (mk_FsLock "/lock" None false) true
                   lock_world) in
  snd (acquire_write_lock (mk_FsLock "/lock" None false) false m1).

(** Worlds for the directory examples, all run by root with umask
    022.  Modes in decimal: 0755 = 493, 0500 = 320, 0644 = 420,
    0300 = 192, 0100 = 64, 02755 = 1517. *)
Definition root_entry : string * MemFs.inode := ("/", MemFs.dir 493 0 0).

Definition bare_world : machine MemFs.t := MemFs.boot 0 0 [root_entry].

(** [/a] is a directory of mode 0500 that holds a regular file [/a/f]. *)
Definition blocked_world : machine MemFs.t :=
  MemFs.boot 0 0 [root_entry; ("/a", MemFs.dir 320 0 0);
                  ("/a/f", MemFs.reg 420 0 0)].

(** [/f] is a regular file of mode 0644. *)
Definition file_world : machine MemFs.t :=
  MemFs.boot 0 0 [root_entry; ("/f", MemFs.reg 420 0 0)].

(** [/p] is a directory with the given mode and group. *)
Definition parent_world (mode g : Z) : machine MemFs.t :=
  MemFs.boot 0 0 [root_entry; ("/p", MemFs.dir mode 0 g)].

(** The machine in which the segment walk starts, after the failed
    [stat] of the target and [umask(0)]. *)
Definition walk_start (path : string) (m : machine MemFs.t)
    : machine MemFs.t :=
  mk_machine (snd (os_umask 0 (world m)))
    (trace m ++ [mk_event (Stat path) (Some Const.ENOENT);
                 mk_event (Umask 0) None]).

(** ** Symlink resolution: [abssymlink] and [abspath] *)

Module PyStrMore.

(** [s.rfind(d)] for a one-character [d]: the index of its last
    occurrence, or -1. *)
Fixpoint rfind_from (s : string) (d : ascii) (i found : Z) : Z :=
  match s with
  | EmptyString => found
  | String c s' => rfind_from s' d (i + 1) (if Ascii.eqb c d then i else found)
  end.

Definition rfind (s : string) (d : ascii) : Z := rfind_from s d 0 (-1).

(** [s[:n]] for [n >= 0] *)
Fixpoint slice_to (n : nat) (s : string) : string :=
  match n, s with
  | O, _ => EmptyString
  | S n', String c s' => String c (slice_to n' s')
  | S _, EmptyString => EmptyString
  end.

(** [s.rstrip(d)] for a one-character [d] *)
Fixpoint rstrip_char (s : string) (d : ascii) : string :=
  match s with
  | EmptyString => EmptyString
  | String c s' =>
      match rstrip_char s' d with
      | EmptyString => if Ascii.eqb c d then EmptyString
                       else String c EmptyString
      | r => String c r
      end
  end.

End PyStrMore.

(** [posixpath.dirname], of the Python standard library. *)
Definition os_path_dirname (p : string) : string :=
  let i := PyStrMore.rfind p OsPath.sep + 1 in
  let head := PyStrMore.slice_to (Z.to_nat i) p in
  if negb (String.eqb head "")
     && negb (String.eqb head
                (PyStr.repeat_char OsPath.sep (String.length head)))
  then PyStrMore.rstrip_char head OsPath.sep
  else head.

Definition EINVAL : Z := 22.

(** What the two functions give: a path, an [OSError] that leaves the
    function, or the [IndexError] of [mylink[0]] on an empty link
    target. *)
Inductive link_result :=
| LinkPath (p : string)
| LinkOSError (errno : Z)
| LinkIndexError.

Section Symlinks.
(** The two functions only read the filesystem: [os.readlink] and
    [os.getcwd] are taken as they answer at the time of the call. *)
Variable readlink : string -> sysret string.
Variable getcwd : sysret string.

Definition abssymlink (path : string) : link_result :=
  match readlink path with
  | Errno e => LinkOSError e
  | Done mylink =>
      match mylink with
      | EmptyString => LinkIndexError
      | String c _ =>
          if negb (Ascii.eqb c "/") then
            let mydir := os_path_dirname path in
            LinkPath (normpath (mydir ++ "/" ++ mylink))
          else LinkPath (normpath mylink)
      end
  end.

(** [os.path.abspath], with [getcwd] as it answers. *)
Definition os_path_abspath (path : string) : sysret string :=
  if negb (OsPath.isabs path) then
    match getcwd with
    | Errno e => Errno e
    | Done cwd => Done (OsPath.normpath (OsPath.join2 cwd path))
    end
  else Done (OsPath.normpath path).

Definition abspath (path : string) : link_result :=
  match os_path_abspath path with
  | Errno e => LinkOSError e
  | Done path =>
      match abssymlink path with
      | LinkOSError e =>
          if negb (Z.eqb e Const.ENOENT || Z.eqb e EINVAL)
          then LinkOSError e
          else LinkPath path
      | r => r
      end
  end.

End Symlinks.

(** ** [_py2k_ascii_strict_filter] *)

(** A line is the list of the ordinals of its characters.  The
    generator is run to its end: the lines it yields, and whether it
    ended by raising [ValueError]. *)
Fixpoint _py2k_ascii_strict_filter (source : list (list Z))
    : list (list Z) * bool :=
  match source with
  | [] => ([], false)
  | line :: rest =>
      if existsb (fun char => truthy (Z.land 128 char)) line
      then ([], true)
      else let (yielded, raised) := _py2k_ascii_strict_filter rest in
           (line :: yielded, raised)
  end.

(** ** Vocabulary for the further properties *)

Definition is_chown (ev : event) : bool :=
  match ev_call ev with
  | Chown _ _ _ => true
  | _ => false
  end.

Definition is_umask (ev : event) : bool :=
  match ev_call ev with
  | Umask _ => true
  | _ => false
  end.

(** The system calls [ensure_dirs] may make between its two [umask]
    calls, for the given arguments: [stat], [getcwd] and [chmod]; [mkdir]
    with the requested mode, or with 0700 when that mode lacks owner
    write or execute; [chown] with the given ids, and only when one of
    them is given. *)
Definition walk_event (gid uid mode : Z) (ev : event) : Prop :=
  match ev_call ev with
  | Stat _ => True
  | Getcwd => True
  | Chmod _ _ => True
  | Mkdir _ md =>
      md = if Z.eqb (Z.land mode Const.o300) Const.o300 then mode
           else Const.o700
  | Chown _ u g => u = uid /\ g = gid /\ (uid <> -1 \/ gid <> -1)
  | _ => False
  end.

(** The trace of [m'] is the trace of [m] followed by events that all
    satisfy [Q]. *)
Definition extends {W : Type} (Q : event -> Prop) (m m' : machine W) : Prop :=
  exists evs, trace m' = (trace m ++ evs)%list /\ Forall Q evs.

(** The calls [ensure_dirs] may make on a target that exists, after the
    [stat] that found it with metadata [st]: a [chown] of the target to
    the given ids, when a given id differs from the current one; a
    [chmod] of the target, to the current mode with the requested bits
    added (minimal) or to the requested mode (not minimal), when the
    mode test of the source finds a difference. *)
Definition adjust_event (path : string) (gid uid mode : Z) (minimal : bool)
    (st : stat_result) (ev : event) : Prop :=
  match ev_call ev with
  | Chown p u g =>
      p = path /\ u = uid /\ g = gid
      /\ ((gid <> -1 /\ gid <> st_gid st) \/ (uid <> -1 /\ uid <> st_uid st))
  | Chmod p md =>
      p = path
      /\ if minimal
         then md = Z.lor (st_mode st) mode
              /\ mode <> Z.land (st_mode st) mode
         else md = mode /\ mode <> Z.land (st_mode st) Const.o7777
  | _ => False
  end.

Definition succeeded (ev : event) : Prop := ev_errno ev = None.

(** A [mkdir] uses the requested mode, or 0700 when the requested mode
    lacks owner write or execute. *)
Definition mkdir_mode_ok (mode : Z) (ev : event) : Prop :=
  match ev_call ev with
  | Mkdir _ md =>
      md = if Z.eqb (Z.land mode Const.o300) Const.o300 then mode
           else Const.o700
  | _ => True
  end.

(** A [chmod] keeps every bit of the mode [old] and sets every bit of
    [mode]. *)
Definition chmod_only_adds (old mode : Z) (ev : event) : Prop :=
  match ev_call ev with
  | Chmod _ md => bits_subset old md /\ bits_subset mode md
  | _ => True
  end.

(** The path the final [chown] of the reset phase is applied to: the
    loop variable of the reset loop is the function's [base], so it is
    the path of the first recorded reset, or the last walked path when
    no reset was recorded. *)
Definition final_chown_target (f : frame) : string :=
  match resets f with
  | [] => base f
  | r :: _ => fst r
  end.

(** ** Proof automation for the monadic code *)

(** Unfold the monadic plumbing down to the system calls. *)
Ltac unfold_monad :=
  unfold sys_stat, sys_lstat, sys_mkdir, sys_chmod, sys_chown, sys_umask,
    sys_getcwd, sys_open, sys_flock, syscall_raising, syscall_total,
    try_except_OSError, try_except_OSError_else, try_finally, raise, ret,
    bind;
  cbn beta iota delta [world trace].

(** Case analysis on the next system call or test of the goal. *)
Ltac next_case :=
  match goal with
  | |- context [os_stat ?p ?w] =>
      destruct (os_stat p w) as [[?|?] ?] eqn:?
  | |- context [os_mkdir ?p ?md ?w] =>
      destruct (os_mkdir p md w) as [[[]|?] ?] eqn:?
  | |- context [os_chmod ?p ?md ?w] =>
      destruct (os_chmod p md w) as [[[]|?] ?] eqn:?
  | |- context [os_chown ?p ?u ?g ?w] =>
      destruct (os_chown p u g w) as [[[]|?] ?] eqn:?
  | |- context [os_getcwd ?w] =>
      destruct (os_getcwd w) as [[?|?] ?] eqn:?
  | |- context [if ?b then _ else _] => destruct b eqn:?
  end;
  cbn beta iota delta [world trace negb].

Ltac trace_eq := rewrite <- ?app_assoc; cbn [app]; reflexivity.

(** Facts about the tests that guard a [chown]. *)
Create HintDb chown_tests.

(** Close a goal [extends (walk_event ..) m m'] whose traces are
    explicit. *)
Ltac explicit_extends :=
  cbn [snd fst]; eexists; split; [cbn [trace]; trace_eq|];
  repeat (apply List.Forall_cons;
          [cbn; first [exact I | reflexivity
                      | repeat split; eauto with chown_tests]
          |]);
  apply List.Forall_nil.

(** The in-memory filesystem as a process sees it whose working
    directory has been removed: [getcwd] fails with ENOENT, every other
    call is as before. *)
Definition detached_posix : Posix MemFs.t := {|
  os_stat := MemFs.stat;
  os_lstat := MemFs.stat;
  os_mkdir := MemFs.mkdir;
  os_chmod := MemFs.chmod;
  os_chown := MemFs.chown;
  os_umask := MemFs.umask;
  os_getcwd := fun w => (Errno Const.ENOENT, w);
  os_getuid := fun w => (MemFs.uid w, w);
  os_getgroups := fun w => (MemFs.groups w, w);
  os_open := MemFs.open;
  os_flock := MemFs.flock
|}.

(** * Properties *)

(** ** Path normalisation *)

Section NormpathFacts.
Import PyStr NormalForm.

Local Abbreviation sep := OsPath.sep.

Lemma split_not_nil s d : split s d <> [].
Proof.
  destruct s as [|c s]; simpl; [discriminate|].
  destruct (Ascii.eqb c d); [discriminate|].
  destruct (split s d); discriminate.
Qed.

Lemma split_free s d : Forall (fun c => free_of d c = true) (split s d).
Proof.
  induction s as [|c s IH]; simpl.
  - repeat constructor.
  - destruct (Ascii.eqb c d) eqn:E.
    + constructor; [reflexivity|exact IH].
    + destruct (split s d) as [|h t].
      * repeat constructor. simpl. rewrite E. reflexivity.
      * inversion IH; subst. constructor; [|assumption].
        simpl. rewrite E. simpl. assumption.
Qed.

Lemma split_free_id c d : free_of d c = true -> split c d = [c].
Proof.
  induction c as [|a c IH]; simpl; [reflexivity|].
  intros H. apply andb_true_iff in H as [Ha Hc].
  apply negb_true_iff in Ha. rewrite Ha, (IH Hc). reflexivity.
Qed.

Lemma split_app_sep c rest d :
  free_of d c = true ->
  split (c ++ String d rest) d = c :: split rest d.
Proof.
  induction c as [|a c IH]; simpl.
  - intros _. rewrite Ascii.eqb_refl. reflexivity.
  - intros H. apply andb_true_iff in H as [Ha Hc].
    apply negb_true_iff in Ha. rewrite Ha, (IH Hc). reflexivity.
Qed.

Lemma split_join c cs :
  Forall (fun x => free_of sep x = true) (c :: cs) ->
  split (join "/" (c :: cs)) sep = c :: cs.
Proof.
  revert c. induction cs as [|c' cs IH]; intros c H.
  - inversion H; subst. simpl. apply split_free_id. assumption.
  - inversion H as [|? ? Hc Hrest]; subst.
    change (join "/" (c :: c' :: cs))
      with (c ++ String sep (join "/" (c' :: cs))).
    rewrite split_app_sep by assumption.
    rewrite IH by assumption. reflexivity.
Qed.

Lemma normal_snoc_inv r acc c :
  normal r (acc ++ [c]) ->
  normal r acc /\ component c /\
  (c = ".." -> r = false /\ (acc = [] \/ List.last acc "" = "..")).
Proof.
  intros H. inversion H as [E | acc' c' Hn Hc Hne E | acc' Hr Hn Hl E].
  - destruct acc; discriminate.
  - apply app_inj_tail in E as [-> ->].
    split; [assumption|]. split; [assumption|].
    intros ->. contradiction.
  - apply app_inj_tail in E as [-> <-].
    split; [assumption|]. split.
    + repeat split; discriminate.
    + intros _. split; assumption.
Qed.

Lemma normal_removelast r acc : normal r acc -> normal r (removelast acc).
Proof.
  intros H. destruct H; simpl; [constructor| |];
    rewrite removelast_last; assumption.
Qed.

Lemma normal_last_up r acc :
  normal r acc -> acc <> [] -> List.last acc "" = ".." -> r = false.
Proof.
  intros H Hne Hl. destruct H as [| acc c Hn Hc Hcne | acc Hr Hn Ho].
  - contradiction.
  - rewrite last_last in Hl. contradiction.
  - assumption.
Qed.

Lemma normal_app_l r a b : normal r (a ++ b) -> normal r a.
Proof.
  induction b as [|x b IH] using rev_ind; intros H.
  - rewrite app_nil_r in H. assumption.
  - rewrite app_assoc in H. apply normal_snoc_inv in H as [H _]. auto.
Qed.

Lemma normal_components r l : normal r l -> Forall component l.
Proof.
  induction 1 as [| acc c Hn IH Hc Hne | acc Hr Hn IH Ho].
  - constructor.
  - apply Forall_app. split; [assumption|]. repeat constructor; apply Hc.
  - apply Forall_app. split; [assumption|].
    repeat constructor; discriminate.
Qed.

(** The loop body keeps the accumulated components in normal form. *)
Lemma step_normal n acc c :
  normal (negb (Nat.eqb n 0)) acc -> free_of sep c = true ->
  normal (negb (Nat.eqb n 0)) (OsPath.normpath_step n acc c).
Proof.
  intros Hacc Hfree. unfold OsPath.normpath_step.
  destruct (String.eqb_spec c ""); [assumption|].
  destruct (String.eqb_spec c "."); [assumption|]. simpl.
  destruct (String.eqb_spec c "..") as [->|Hup]; simpl.
  - case_bool_decide as Hnil; simpl.
    + rewrite andb_true_r. subst acc.
      destruct (Nat.eqb n 0) eqn:En; simpl; [|constructor].
      apply (normal_up _ []); auto using normal_nil.
    + rewrite andb_false_r. simpl.
      destruct (String.eqb_spec (List.last acc "") "..") as [Hl|Hl].
      * apply normal_up; auto.
        apply (normal_last_up _ _ Hacc Hnil Hl).
      * apply normal_removelast. assumption.
  - apply normal_name; auto. repeat split; assumption.
Qed.

Lemma fold_normal n l acc :
  Forall (fun c => free_of sep c = true) l ->
  normal (negb (Nat.eqb n 0)) acc ->
  normal (negb (Nat.eqb n 0)) (fold_left (OsPath.normpath_step n) l acc).
Proof.
  intros Hl. revert acc.
  induction Hl as [|c l Hc Hl IH]; intros acc Hacc; simpl; [assumption|].
  apply IH. apply step_normal; assumption.
Qed.

(** On a list that is already normal the loop body only appends. *)
Lemma step_keep n acc c :
  normal (negb (Nat.eqb n 0)) (acc ++ [c])%list ->
  OsPath.normpath_step n acc c = (acc ++ [c])%list.
Proof.
  intros H. apply normal_snoc_inv in H as (Hacc & (Hc1 & Hc2 & Hc3) & Hup).
  unfold OsPath.normpath_step.
  destruct (String.eqb_spec c ""); [contradiction|].
  destruct (String.eqb_spec c "."); [contradiction|]. simpl.
  destruct (String.eqb_spec c "..") as [->|Hne]; simpl; [|reflexivity].
  destruct (Hup eq_refl) as [Hr [->|Hl]].
  - apply negb_false_iff in Hr. rewrite Hr. reflexivity.
  - case_bool_decide as Hnil; simpl.
    + subst acc. apply negb_false_iff in Hr. rewrite Hr. reflexivity.
    + rewrite andb_false_r. simpl. rewrite Hl. reflexivity.
Qed.

Lemma fold_keep n l acc :
  normal (negb (Nat.eqb n 0)) (acc ++ l)%list ->
  fold_left (OsPath.normpath_step n) l acc = (acc ++ l)%list.
Proof.
  revert acc. induction l as [|c l IH]; intros acc H; simpl.
  - rewrite app_nil_r. reflexivity.
  - change (acc ++ c :: l)%list with (acc ++ [c] ++ l)%list in *.
    rewrite app_assoc in *.
    rewrite step_keep by (eapply normal_app_l; eassumption).
    apply IH. assumption.
Qed.

Lemma startswith_sep a s :
  startswith (String a s) "/" = Ascii.eqb a sep.
Proof.
  unfold startswith. cbn [String.prefix].
  destruct (ascii_dec "/" a) as [<-|Hne].
  - destruct s; reflexivity.
  - symmetry. apply Ascii.eqb_neq. intros ->. apply Hne. reflexivity.
Qed.

(** A joined non-empty normal list starts with a character other than
    the separator. *)
Lemma join_head c cs :
  Forall component (c :: cs) ->
  exists a rest, join "/" (c :: cs) = String a rest /\ a <> sep.
Proof.
  intros H. inversion H as [|? ? (Hne & _ & Hfree) _]; subst.
  destruct c as [|a c']; [contradiction|].
  simpl in Hfree. apply andb_true_iff in Hfree as [Ha _].
  apply negb_true_iff, Ascii.eqb_neq in Ha.
  destruct cs; simpl; eauto.
Qed.

Lemma join_not_rooted r comps :
  normal r comps -> startswith (join "/" comps) "/" = false.
Proof.
  intros H. apply normal_components in H.
  destruct comps as [|c cs]; [reflexivity|].
  destruct (join_head _ _ H) as (a & rest & -> & Ha).
  rewrite startswith_sep. apply Ascii.eqb_neq. assumption.
Qed.

Lemma normpath_unfold p :
  p <> "" ->
  OsPath.normpath p
  = render (OsPath.initial_slashes p)
      (fold_left (OsPath.normpath_step (OsPath.initial_slashes p))
         (split p sep) []).
Proof.
  intros Hp. unfold OsPath.normpath.
  destruct (String.eqb_spec p ""); [contradiction|reflexivity].
Qed.

Lemma initial_slashes_le p : (OsPath.initial_slashes p <= 2)%nat.
Proof.
  unfold OsPath.initial_slashes.
  destruct (startswith p "/"); [|lia].
  destruct (startswith p "//" && negb (startswith p "///")); lia.
Qed.

Lemma initial_slashes_relative s :
  startswith s "/" = false -> OsPath.initial_slashes s = 0%nat.
Proof. intros H. unfold OsPath.initial_slashes. rewrite H. reflexivity. Qed.

Lemma initial_slashes_single s :
  startswith s "/" = false ->
  OsPath.initial_slashes (String sep s) = 1%nat.
Proof.
  intros H. unfold OsPath.initial_slashes.
  rewrite startswith_sep, Ascii.eqb_refl.
  replace (startswith (String sep s) "//") with (startswith s "/")
    by reflexivity.
  rewrite H. reflexivity.
Qed.

Lemma normpath_shape p :
  exists n comps,
    (n <= 2)%nat /\ normal (negb (Nat.eqb n 0)) comps /\
    OsPath.normpath p = render n comps.
Proof.
  destruct (String.eqb_spec p "") as [->|Hp].
  - exists 0%nat, []. split; [lia|]. split; [constructor|reflexivity].
  - rewrite (normpath_unfold p Hp).
    eexists _, _. split; [apply initial_slashes_le|].
    split; [|reflexivity].
    apply fold_normal; [apply split_free|constructor].
Qed.

(** [native_normpath] yields at most one leading slash. *)
Lemma native_shape p :
  exists n comps,
    (n <= 1)%nat /\ normal (negb (Nat.eqb n 0)) comps /\
    native_normpath p = render n comps.
Proof.
  destruct (normpath_shape p) as (n & comps & Hn & Hnorm & Heq).
  unfold native_normpath. rewrite Heq. clear Heq.
  pose proof (join_not_rooted _ _ Hnorm) as Hj.
  destruct n as [|[|[|n]]]; [| | |lia].
  - exists 0%nat, comps. split; [lia|]. split; [assumption|].
    unfold render. simpl Nat.eqb. cbv iota.
    destruct (String.eqb_spec (join "/" comps) "") as [E|E].
    + reflexivity.
    + destruct (join "/" comps) as [|a j]; [contradiction|].
      rewrite startswith_sep in Hj.
      unfold startswith. cbn [String.prefix].
      destruct (ascii_dec "/" a) as [<-|]; [discriminate|reflexivity].
  - exists 1%nat, comps. split; [lia|]. split; [assumption|].
    unfold render. simpl Nat.eqb. cbv iota.
    change (repeat_char sep 1 ++ join "/" comps)
      with (String sep (join "/" comps)).
    simpl String.eqb. cbv iota.
    replace (startswith (String sep (join "/" comps)) "//")
      with (startswith (join "/" comps) "/") by reflexivity.
    rewrite Hj. reflexivity.
  - exists 1%nat, comps. split; [lia|]. split; [assumption|].
    unfold render. simpl Nat.eqb. cbv iota.
    change (repeat_char sep 2 ++ join "/" comps)
      with (String sep (String sep (join "/" comps))).
    change (repeat_char sep 1 ++ join "/" comps)
      with (String sep (join "/" comps)).
    simpl String.eqb. cbv iota.
    assert (H2 : startswith (String sep (String sep (join "/" comps))) "//"
                 = true) by (destruct (join "/" comps); reflexivity).
    rewrite H2. reflexivity.
Qed.

(** A rendered normal form with at most one leading slash is a fixed
    point of [posixpath.normpath]. *)
Lemma normpath_render_fixed n comps :
  (n <= 1)%nat -> normal (negb (Nat.eqb n 0)) comps ->
  OsPath.normpath (render n comps) = render n comps.
Proof.
  intros Hn Hnorm.
  pose proof (join_not_rooted _ _ Hnorm) as Hj.
  pose proof (normal_components _ _ Hnorm) as Hcomp.
  assert (Hfree : Forall (fun c => free_of sep c = true) comps).
  { eapply Forall_impl; [exact Hcomp|]. intros c Hc. apply Hc. }
  destruct n as [|[|n]]; [| |lia].
  - destruct comps as [|c cs]; [reflexivity|].
    destruct (join_head _ _ Hcomp) as (a & rest & Hs & Ha).
    assert (Hr : render 0 (c :: cs) = join "/" (c :: cs)).
    { unfold render. simpl Nat.eqb. cbv iota. rewrite Hs. reflexivity. }
    rewrite Hr. rewrite normpath_unfold by (rewrite Hs; discriminate).
    rewrite (initial_slashes_relative _ Hj).
    rewrite split_join by assumption.
    rewrite (fold_keep 0 (c :: cs) []) by exact Hnorm.
    exact Hr.
  - assert (Hr : render 1 comps = String sep (join "/" comps))
      by reflexivity.
    rewrite Hr. rewrite normpath_unfold by discriminate.
    rewrite (initial_slashes_single _ Hj).
    replace (split (String sep (join "/" comps)) sep)
      with ("" :: split (join "/" comps) sep) by reflexivity.
    change (fold_left (OsPath.normpath_step 1)
              ("" :: split (join "/" comps) sep) [])
      with (fold_left (OsPath.normpath_step 1)
              (split (join "/" comps) sep) []).
    destruct comps as [|c cs]; [reflexivity|].
    rewrite split_join by assumption.
    rewrite (fold_keep 1 (c :: cs) []) by exact Hnorm.
    reflexivity.
Qed.

(** A rendered normal form with at most one leading slash does not
    start with two. *)
Lemma render_no_double n comps :
  (n <= 1)%nat -> normal (negb (Nat.eqb n 0)) comps ->
  startswith (render n comps) "//" = false.
Proof.
  intros Hn Hnorm.
  pose proof (join_not_rooted _ _ Hnorm) as Hj.
  destruct n as [|[|n]]; [| |lia].
  - unfold render. simpl Nat.eqb. cbv iota.
    destruct (String.eqb_spec (join "/" comps) "") as [E|E];
      [reflexivity|].
    destruct (join "/" comps) as [|a j]; [contradiction|].
    rewrite startswith_sep in Hj.
    unfold startswith. cbn [String.prefix].
    destruct (ascii_dec "/" a) as [<-|]; [discriminate|reflexivity].
  - exact Hj.
Qed.

End NormpathFacts.

(** C8: [normpath] is idempotent: normalising an already normalised path
    returns it unchanged, for every path string. *)
Theorem normpath_idempotent (p : string) :
  normpath (normpath p) = normpath p.
Proof.
  unfold normpath.
  destruct (native_shape p) as (n & comps & Hn & Hnorm & ->).
  unfold native_normpath.
  rewrite normpath_render_fixed by assumption.
  rewrite render_no_double by assumption.
  reflexivity.
Qed.

(** C9: [normpath] is [os.path.normpath] except that a doubled leading
    separator is collapsed: when the standard form is "//" followed by
    [rest] the result is "/" followed by [rest]; when the standard form
    does not start with "//" it is returned as it is; the result never
    starts with "//"; and "//usr//local/../bin" becomes "/usr/bin". *)
Theorem normpath_collapses_leading_double_slash (p : string) :
  (forall rest, OsPath.normpath p = "//" ++ rest -> normpath p = "/" ++ rest)
  /\ (PyStr.startswith (OsPath.normpath p) "//" = false ->
      normpath p = OsPath.normpath p)
  /\ PyStr.startswith (normpath p) "//" = false
  /\ normpath "//usr//local/../bin" = "/usr/bin".
Proof.
  unfold normpath. repeat split.
  - intros rest H. unfold native_normpath. rewrite H.
    destruct rest; reflexivity.
  - intros H. unfold native_normpath. rewrite H. reflexivity.
  - destruct (native_shape p) as (n & comps & Hn & Hnorm & ->).
    apply render_no_double; assumption.
Qed.

Lemma normpath_collapses_leading_double_slash_witness :
  (OsPath.normpath "//usr//local/../bin" = "//" ++ "usr/bin"
   /\ normpath "//usr//local/../bin" = "/" ++ "usr/bin")
  /\ (PyStr.startswith (OsPath.normpath "usr/./bin/") "//" = false
      /\ normpath "usr/./bin/" = OsPath.normpath "usr/./bin/").
Proof.
  split; (split; [reflexivity|]).
  - apply (proj1 (normpath_collapses_leading_double_slash
                    "//usr//local/../bin")).
    reflexivity.
  - apply (proj1 (proj2 (normpath_collapses_leading_double_slash
                           "usr/./bin/"))).
    reflexivity.
Defined.


(** ** The access-check fallback *)

Lemma eqb_land_subset (a b : Z) :
  Z.eqb a (Z.land a b) = true <-> bits_subset a b.
Proof.
  rewrite Z.eqb_eq. unfold bits_subset. split.
  - intros E i Hi Ha. rewrite E, Z.land_spec in Ha.
    apply andb_true_iff in Ha. apply Ha.
  - intros H. apply Z.bits_inj'. intros i Hi. rewrite Z.land_spec.
    destruct (Z.testbit a i) eqn:Ea; [|reflexivity].
    rewrite (H i Hi Ea). reflexivity.
Qed.

Lemma testbit_73 (i : Z) :
  0 <= i -> Z.testbit 73 i = true -> i = 0 \/ i = 3 \/ i = 6.
Proof.
  intros Hi H. destruct (Z_lt_le_dec i 7) as [Hlt|Hge].
  - assert (Hc : i = 0 \/ i = 1 \/ i = 2 \/ i = 3 \/ i = 4 \/ i = 5 \/ i = 6)
      by lia.
    destruct Hc as [->|[->|[->|[->|[->|[->| ->]]]]]]; auto; discriminate.
  - rewrite Z.bits_above_log2 in H; [discriminate|lia|].
    change (Z.log2 73) with 6. lia.
Qed.

Lemma truthy_land_73 (mode : Z) :
  truthy (Z.land mode 73) = true <-> any_execute_bit mode.
Proof.
  unfold truthy, any_execute_bit. rewrite negb_true_iff, Z.eqb_neq. split.
  - intros Hne.
    destruct (Z.testbit mode 0) eqn:E0; [auto|].
    destruct (Z.testbit mode 3) eqn:E3; [auto|].
    destruct (Z.testbit mode 6) eqn:E6; [auto|].
    exfalso. apply Hne. apply Z.bits_inj'. intros i Hi.
    rewrite Z.land_spec, Z.bits_0.
    destruct (Z.testbit 73 i) eqn:E; [|apply andb_false_r].
    destruct (testbit_73 i Hi E) as [->|[->| ->]]; rewrite ?E0, ?E3, ?E6;
      reflexivity.
  - intros H E.
    assert (Hb : forall i, Z.testbit mode i && Z.testbit 73 i = false).
    { intros i. rewrite <- Z.land_spec, E. apply Z.bits_0. }
    destruct H as [H|[H|H]];
      [specialize (Hb 0)|specialize (Hb 3)|specialize (Hb 6)];
      rewrite H in Hb; discriminate.
Qed.

Lemma truthy_land_1 (mode : Z) :
  truthy (Z.land mode Const.X_OK) = Z.testbit mode 0.
Proof.
  unfold truthy, Const.X_OK.
  change 1 with (Z.ones 1). rewrite Z.land_ones by lia.
  change (2 ^ 1) with 2. rewrite <- Z.bit0_mod.
  destruct (Z.testbit mode 0); reflexivity.
Qed.

Section AccessFacts.
Context {W : Type} {P : Posix W}.

(** What [fallback_access] answers when [lstat] succeeds, in terms of
    the uid and the groups the process reports. *)
Lemma fallback_access_after_lstat path mode (m : machine W) st w1 :
  os_lstat path (world m) = (Done st, w1) ->
  exists b m',
    fallback_access path mode m = (Returned b, m') /\
    access_rule st mode (fst (os_getuid w1))
      (fst (os_getgroups (snd (os_getuid w1)))) b.
Proof.
  intros Hl.
  unfold access_rule, fallback_access, bind, try_except_EnvironmentError,
    sys_lstat, syscall_raising, ret.
  rewrite Hl. cbn [world trace].
  destruct (Z.eqb_spec mode Const.F_OK) as [->|Hmode].
  - eexists _, _. split; [reflexivity|]. split; [reflexivity|].
    intros H. contradiction H. reflexivity.
  - unfold sys_getuid, sys_getgroups, syscall_total. cbn [world trace].
    destruct (os_getuid w1) as [myuid w2] eqn:Hu. cbn [world trace fst snd].
    destruct (Z.eqb_spec myuid 0) as [->|Hroot].
    + rewrite truthy_land_1.
      destruct (Z.testbit mode 0) eqn:Hx; cbn [negb].
      * eexists _, _. split; [reflexivity|]. split; [contradiction|].
        intros _. cbv zeta. split; [|repeat split; intros; congruence].
        intros _. rewrite truthy_land_73. split; auto.
      * eexists _, _. split; [reflexivity|]. split; [contradiction|].
        intros _. cbv zeta. split; [|repeat split; intros; congruence].
        intros _. split; [discriminate|reflexivity].
    + cbn beta iota delta [world trace fst snd].
      destruct (os_getgroups w2) as [mygroups w3] eqn:Hg.
      cbn [world trace fst snd].
      assert (Hin : existsb (Z.eqb (st_gid st)) mygroups = true
                    <-> In (st_gid st) mygroups).
      { rewrite existsb_exists. split.
        - intros (x & Hx & E). apply Z.eqb_eq in E. subst x. assumption.
        - intros Hx. exists (st_gid st). split; [assumption|apply Z.eqb_refl]. }
      destruct (Z.eqb_spec myuid (st_uid st)) as [Hown|Hown].
      * eexists _, _. split; [reflexivity|]. split; [contradiction|].
        intros _. cbv zeta. split; [intros; contradiction|].
        split; [intros _ _; apply eqb_land_subset|].
        split; intros; contradiction.
      * destruct (existsb (Z.eqb (st_gid st)) mygroups) eqn:Hgrp.
        -- eexists _, _. split; [reflexivity|]. split; [contradiction|].
           intros _. cbv zeta. split; [intros; contradiction|].
           split; [intros; contradiction|].
           split; [intros _ _ _; apply eqb_land_subset|].
           intros _ _ Hn. contradiction Hn. apply Hin. reflexivity.
        -- eexists _, _. split; [reflexivity|]. split; [contradiction|].
           intros _. cbv zeta. split; [intros; contradiction|].
           split; [intros; contradiction|].
           split; [|intros _ _ _; apply eqb_land_subset].
           intros _ _ Hn. apply Hin in Hn. discriminate.
Qed.

(** C10: when [lstat] fails, [fallback_access] returns [False] for
    every requested mode, the existence-only request included, and
    raises nothing; [lstat] is the only system call made. *)
Theorem fallback_access_lstat_failure path mode (m : machine W) errno w1 :
  os_lstat path (world m) = (Errno errno, w1) ->
  fallback_access path mode m
  = (Returned false,
     mk_machine w1 (trace m ++ [mk_event (Lstat path) (Some errno)])).
Proof.
  intros Hl.
  unfold fallback_access, bind, try_except_EnvironmentError, sys_lstat,
    syscall_raising, ret.
  rewrite Hl. reflexivity.
Qed.

End AccessFacts.

(** C6: once [lstat] has succeeded, [fallback_access] returns a boolean
    that follows the access rule: an empty request is granted; uid 0 is
    always granted read and write, and execute iff one of the three
    execute bits is set; otherwise the owner is judged on the owner
    triplet, a member of the file's group on the group triplet, anyone
    else on the other triplet.  For a file of uid 1000 with mode 0640:
    uid 1000 may write, uid 2000 in the file's group may not, uid 0 may. *)
Theorem fallback_access_decision :
  (forall (W : Type) (P : Posix W) path mode (m : machine W) st w1,
      os_lstat path (world m) = (Done st, w1) ->
      exists b m',
        fallback_access path mode m = (Returned b, m') /\
        access_rule st mode (fst (os_getuid w1))
          (fst (os_getgroups (snd (os_getuid w1)))) b)
  /\ fst (fallback_access "/data" Const.W_OK (example_0640 1000 1000))
     = Returned true
  /\ fst (fallback_access "/data" Const.W_OK (example_0640 2000 50))
     = Returned false
  /\ fst (fallback_access "/data" Const.W_OK (example_0640 0 0))
     = Returned true.
Proof.
  split; [|repeat split; vm_compute; reflexivity].
  intros W P path mode m st w1 Hl.
  exact (fallback_access_after_lstat path mode m st w1 Hl).
Qed.

Lemma fallback_access_decision_witness :
  os_lstat "/data" (world (example_0640 2000 50))
  = (Done (mk_stat 33184 1000 50), world (example_0640 2000 50))
  /\ exists b m',
       fallback_access "/data" Const.W_OK (example_0640 2000 50)
       = (Returned b, m')
       /\ access_rule (mk_stat 33184 1000 50) Const.W_OK 2000 [50] b.
Proof.
  split; [vm_compute; reflexivity|].
  exact (proj1 fallback_access_decision _ _ "/data" Const.W_OK
           (example_0640 2000 50) (mk_stat 33184 1000 50)
           (world (example_0640 2000 50)) eq_refl).
Defined.

Lemma fallback_access_lstat_failure_witness :
  os_lstat "/missing" (world (example_0640 1000 1000))
  = (Errno Const.ENOENT, world (example_0640 1000 1000))
  /\ fallback_access "/missing" Const.F_OK (example_0640 1000 1000)
     = (Returned false,
        mk_machine (world (example_0640 1000 1000))
          (trace (example_0640 1000 1000)
           ++ [mk_event (Lstat "/missing") (Some Const.ENOENT)])).
Proof.
  split; [vm_compute; reflexivity|].
  apply (fallback_access_lstat_failure "/missing" Const.F_OK
           (example_0640 1000 1000) Const.ENOENT).
  vm_compute. reflexivity.
Defined.


(** ** Advisory locks *)

Section LockFacts.
Context {W : Type} {P : Posix W}.

(** A non-blocking change on an open descriptor is one [flock] call. *)
Lemma enact_change_nonblocking self fd flags (m : machine W) :
  lock_fd self = Some fd ->
  _enact_change self flags false m
  = match os_flock fd (Z.lor flags Const.LOCK_NB) (world m) with
    | (Done _, w1) =>
        (Returned (true, self),
         mk_machine w1
           (trace m ++ [mk_event (Flock fd (Z.lor flags Const.LOCK_NB)) None]))
    | (Errno e, w1) =>
        (if Z.eqb e Const.EAGAIN then Returned (false, self)
         else Raised (GenericFailed (lock_path self) (IOError e)),
         mk_machine w1
           (trace m ++ [mk_event (Flock fd (Z.lor flags Const.LOCK_NB))
                          (Some e)]))
    end.
Proof.
  intros Hfd.
  unfold _enact_change, bind, ret, try_except_IOError, sys_flock,
    syscall_raising, raise.
  rewrite Hfd. cbn beta iota. rewrite Hfd.
  cbn [negb default from_option id world trace].
  destruct (os_flock fd (Z.lor flags Const.LOCK_NB) (world m)) as [[[]|e] w1].
  - reflexivity.
  - destruct (Z.eqb e Const.EAGAIN); reflexivity.
Qed.

(** C7: a non-blocking acquire on a handle whose descriptor is open
    returns [True] when [flock] succeeds, returns [False] without raising
    when [flock] reports [EAGAIN], and raises [GenericFailed] on any
    other errno; for the write lock and for the read lock. *)
Theorem acquire_nonblocking_outcomes self fd (m : machine W) :
  lock_fd self = Some fd ->
  let attempt op := os_flock fd (Z.lor op Const.LOCK_NB) (world m) in
  (forall w1, attempt Const.LOCK_EX = (Done tt, w1) ->
     fst (acquire_write_lock self false m) = Returned (true, self))
  /\ (forall w1, attempt Const.LOCK_EX = (Errno Const.EAGAIN, w1) ->
     fst (acquire_write_lock self false m) = Returned (false, self))
  /\ (forall e w1, e <> Const.EAGAIN ->
     attempt Const.LOCK_EX = (Errno e, w1) ->
     fst (acquire_write_lock self false m)
     = Raised (GenericFailed (lock_path self) (IOError e)))
  /\ (forall w1, attempt Const.LOCK_SH = (Done tt, w1) ->
     fst (acquire_read_lock self false m) = Returned (true, self))
  /\ (forall w1, attempt Const.LOCK_SH = (Errno Const.EAGAIN, w1) ->
     fst (acquire_read_lock self false m) = Returned (false, self))
  /\ (forall e w1, e <> Const.EAGAIN ->
     attempt Const.LOCK_SH = (Errno e, w1) ->
     fst (acquire_read_lock self false m)
     = Raised (GenericFailed (lock_path self) (IOError e))).
Proof.
  intros Hfd attempt. subst attempt. cbv beta.
  unfold acquire_write_lock, acquire_read_lock.
  rewrite !(enact_change_nonblocking self fd _ m Hfd).
  repeat split; intros; repeat match goal with
    | H : os_flock _ _ _ = _ |- _ => rewrite H; clear H
    | H : ?e <> Const.EAGAIN |- _ =>
        apply Z.eqb_neq in H; cbn [fst]; rewrite H; clear H
    end; reflexivity.
Qed.

(** C4 (as the code has it): a release on a handle whose descriptor was
    never opened first opens the lock file, as an acquire would.  If the
    open fails the call raises [GenericFailed] (create) or [NonExistant]
    (no create) after that single system call; if it succeeds the
    descriptor is kept and a non-blocking [LOCK_UN] is issued on it. *)
Theorem release_unopened_opens self (m : machine W) :
  lock_fd self = None ->
  let flags :=
    if lock_create self then Z.lor Const.R_OK Const.O_CREAT else Const.R_OK in
  let failure e :=
    if lock_create self then GenericFailed (lock_path self) (OSError e)
    else NonExistant (lock_path self) (Some (OSError e)) in
  (forall e w1,
     os_open (lock_path self) flags (world m) = (Errno e, w1) ->
     let m' := mk_machine w1
                 (trace m ++ [mk_event (Open (lock_path self) flags) (Some e)]) in
     release_write_lock self m = (Raised (failure e), m')
     /\ release_read_lock self m = (Raised (failure e), m'))
  /\ (forall fd w1,
     os_open (lock_path self) flags (world m) = (Done fd, w1) ->
     let opened := mk_FsLock (lock_path self) (Some fd) (lock_create self) in
     let m1 := mk_machine w1
                 (trace m ++ [mk_event (Open (lock_path self) flags) None]) in
     release_write_lock self m
     = (r <- _enact_change opened Const.LOCK_UN false ;; ret (snd r)) m1
     /\ release_read_lock self m
        = (r <- _enact_change opened Const.LOCK_UN false ;; ret (snd r)) m1
     /\ exists res m',
          release_write_lock self m = (res, m')
          /\ (exists err,
                trace m' = (trace m1
                  ++ [mk_event (Flock fd (Z.lor Const.LOCK_UN Const.LOCK_NB))
                        err])%list)
          /\ forall s, res = Returned s -> s = opened).
Proof.
  intros Hfd flags failure. subst flags failure. split.
  - intros e w1 Ho. cbv zeta.
    unfold release_write_lock, release_read_lock, _enact_change,
      _acquire_fd, sys_open, syscall_raising, try_except_OSError, raise, bind.
    rewrite Hfd. cbn beta iota. revert Ho.
    destruct (lock_create self); intros Ho; rewrite Ho; split; reflexivity.
  - intros fd w1 Ho. cbv zeta.
    assert (Hrun : release_write_lock self m
      = (r <- _enact_change
                (mk_FsLock (lock_path self) (Some fd) (lock_create self))
                Const.LOCK_UN false ;; ret (snd r))
          (mk_machine w1
             (trace m ++ [mk_event (Open (lock_path self)
                (if lock_create self then Z.lor Const.R_OK Const.O_CREAT
                 else Const.R_OK)) None]))).
    { unfold release_write_lock, _enact_change, _acquire_fd, sys_open,
        syscall_raising, try_except_OSError, raise, ret, bind.
      rewrite Hfd. cbn beta iota. revert Ho.
      destruct (lock_create self); intros Ho; rewrite Ho; reflexivity. }
    split; [exact Hrun|]. split; [exact Hrun|].
    rewrite Hrun. unfold bind at 1.
    rewrite (enact_change_nonblocking _ fd) by reflexivity.
    cbn [world trace lock_path].
    destruct (os_flock fd (Z.lor Const.LOCK_UN Const.LOCK_NB) w1)
      as [[u|e] w2].
    + eexists _, _. split; [reflexivity|]. split; [eexists; reflexivity|].
      unfold ret. intros s [= <-]. reflexivity.
    + destruct (Z.eqb e Const.EAGAIN).
      * eexists _, _. split; [reflexivity|]. split; [eexists; reflexivity|].
        unfold ret. intros s [= <-]. reflexivity.
      * eexists _, _. split; [reflexivity|]. split; [eexists; reflexivity|].
        intros s [=].
Qed.

End LockFacts.

Lemma acquire_nonblocking_outcomes_witness :
  lock_fd (mk_FsLock "/lock" (Some 4) false) = Some 4
  /\ os_flock 4 (Z.lor Const.LOCK_EX Const.LOCK_NB) (world contended_world)
     = (Errno Const.EAGAIN, world contended_world)
  /\ fst (acquire_write_lock (mk_FsLock "/lock" (Some 4) false) false
            contended_world)
     = Returned (false, mk_FsLock "/lock" (Some 4) false).
Proof.
  split; [reflexivity|]. split; [vm_compute; reflexivity|].
  apply (proj1 (proj2 (acquire_nonblocking_outcomes
                         (mk_FsLock "/lock" (Some 4) false) 4
                         contended_world eq_refl))
           (world contended_world)).
  vm_compute. reflexivity.
Defined.

Lemma release_unopened_opens_witness :
  lock_fd (mk_FsLock "/run/app.lock" None true) = None
  /\ os_open "/run/app.lock" (Z.lor Const.R_OK Const.O_CREAT) (world lock_world)
     = (Errno Const.ENOENT, world lock_world)
  /\ release_write_lock (mk_FsLock "/run/app.lock" None true) lock_world
     = (Raised (GenericFailed "/run/app.lock" (OSError Const.ENOENT)),
        mk_machine (world lock_world)
          [mk_event (Open "/run/app.lock" (Z.lor Const.R_OK Const.O_CREAT))
             (Some Const.ENOENT)]).
Proof.
  split; [reflexivity|]. split; [vm_compute; reflexivity|].
  apply (proj1 (release_unopened_opens
                  (mk_FsLock "/run/app.lock" None true) lock_world eq_refl)
           Const.ENOENT (world lock_world)).
  vm_compute. reflexivity.
Defined.

(** C4 as stated fails: a handle that was never opened raises from both
    release methods when the lock file cannot be opened.  A handle made
    with [create] under a directory that does not exist raises
    [GenericFailed]; a handle made without [create] whose file has since
    been removed raises [NonExistant]. *)
Lemma release_unopened_raises :
  (exists self m1,
      FsLock_init "/run/app.lock" true lock_world = (Returned self, m1)
      /\ lock_fd self = None
      /\ fst (release_write_lock self m1)
         = Raised (GenericFailed "/run/app.lock" (OSError Const.ENOENT)))
  /\ (exists self m1,
      FsLock_init "/lock" false lock_world = (Returned self, m1)
      /\ lock_fd self = None
      /\ fst (release_read_lock self
                (MemFs.boot 0 0 [("/", MemFs.dir 493 0 0)]))
         = Raised (NonExistant "/lock" (Some (OSError Const.ENOENT)))).
Proof.
  split; eexists _, _; (split; [vm_compute; reflexivity|]);
    split; vm_compute; reflexivity.
Qed.

(** ** Directory provisioning *)

Section EnsureDirsFacts.
Context {W : Type} {P : Posix W}.

Lemma ensure_dirs_stat_fails path gid uid mode minimal (m : machine W) e w1 :
  os_stat path (world m) = (Errno e, w1) ->
  ensure_dirs path gid uid mode minimal m
  = create_dirs path gid uid mode
      (mk_machine w1 (trace m ++ [mk_event (Stat path) (Some e)])).
Proof.
  intros H. unfold ensure_dirs, try_except_OSError_else, sys_stat,
    syscall_raising. rewrite H. reflexivity.
Qed.

Lemma ensure_dirs_stat_ok path gid uid mode minimal (m : machine W) st w1 :
  os_stat path (world m) = (Done st, w1) ->
  ensure_dirs path gid uid mode minimal m
  = adjust_existing path gid uid mode minimal st
      (mk_machine w1 (trace m ++ [mk_event (Stat path) None])).
Proof.
  intros H. unfold ensure_dirs, try_except_OSError_else, sys_stat,
    syscall_raising. rewrite H. reflexivity.
Qed.

(** The branch for an existing target never looks at the file type:
    whatever [stat] reports, a missing permission bit is added with
    [chmod] and the call returns [True]. *)
Lemma ensure_dirs_existing_target_unchecked path mode (m : machine W)
    st w1 w2 :
  os_stat path (world m) = (Done st, w1) ->
  mode <> Z.land (st_mode st) mode ->
  os_chmod path (Z.lor (st_mode st) mode) w1 = (Done tt, w2) ->
  ensure_dirs path (-1) (-1) mode true m
  = (Returned true,
     mk_machine w2
       (trace m ++ [mk_event (Stat path) None;
                    mk_event (Chmod path (Z.lor (st_mode st) mode)) None])).
Proof.
  intros Hs Hm Hc. rewrite (ensure_dirs_stat_ok _ _ _ _ _ _ _ _ Hs).
  unfold adjust_existing. unfold_monad.
  apply Z.eqb_neq in Hm. rewrite Hm.
  change (Z.eqb (-1) (-1)) with true.
  cbn beta iota delta [negb andb orb world trace].
  rewrite Hc. rewrite <- app_assoc. reflexivity.
Qed.

(** [_safe_mkdir] starts with the [mkdir] and can raise nothing but the
    [OSError] of its second [stat]. *)
Lemma safe_mkdir_trace path mode (m : machine W) :
  exists r m' err tail,
    _safe_mkdir path mode m = (r, m')
    /\ trace m' = (trace m ++ mk_event (Mkdir path mode) err :: tail)%list
    /\ (forall x, r = Raised x -> exists e, x = EnvironmentError (OSError e)).
Proof.
  unfold _safe_mkdir. unfold_monad.
  repeat next_case;
    (eexists _, _, _, _; split; [reflexivity|]; split; [trace_eq|]);
    intros x [= <-]; eauto.
Qed.

(** One iteration of the loop body, run with the flag set as the test
    [(mode & 0300) != 0300] sets it: what it does on a segment that
    cannot be stat'ed, and on an existing directory other than the
    target. *)
Lemma walk_segment_temporary_modes gid uid mode apath f directory
    (m : machine W) :
  let target := join (base f) directory in
  let force := negb (Z.eqb (Z.land mode Const.o300) Const.o300) in
  (forall e w1,
     os_stat target (world m) = (Errno e, w1) ->
     exists r m' err tail,
       walk_segment gid uid mode force apath f directory m = (Returned r, m')
       /\ trace m'
          = (trace m
             ++ [mk_event (Stat target) (Some e);
                 mk_event (Mkdir target (if force then Const.o700 else mode))
                   err]
             ++ tail)%list
       /\ (forall f', r = Continue f' ->
           resets f'
           = if force then (resets f ++ [(target, mode)])%list
             else if String.eqb target apath && truthy (sticky_parent f)
                  then (resets f ++ [(target, mode)])%list
                  else resets f))
  /\ (forall st w1,
     os_stat target (world m) = (Done st, w1) ->
     S_ISDIR (st_mode st) = true ->
     apath <> target ->
     let m1 := mk_machine w1 (trace m ++ [mk_event (Stat target) None]) in
     let widened := Z.lor (st_mode st) Const.o300 in
     let flag := Z.land (st_gid st) Const.S_ISGID in
     (Z.land (st_mode st) Const.o300 = Const.o300 ->
      walk_segment gid uid mode force apath f directory m
      = (Returned (Continue (mk_frame target (resets f) flag)), m1))
     /\ (Z.land (st_mode st) Const.o300 <> Const.o300 ->
         (forall w2,
            os_chmod target widened w1 = (Done tt, w2) ->
            walk_segment gid uid mode force apath f directory m
            = (Returned
                 (Continue (mk_frame target
                              (resets f ++ [(target, st_mode st)])%list flag)),
               mk_machine w2
                 (trace m1 ++ [mk_event (Chmod target widened) None])))
         /\ (forall e w2,
            os_chmod target widened w1 = (Errno e, w2) ->
            walk_segment gid uid mode force apath f directory m
            = (Returned (Return false),
               mk_machine w2
                 (trace m1 ++ [mk_event (Chmod target widened) (Some e)]))))).
Proof.
  intros target force. subst target force. split.
  - intros e w1 Hs.
    unfold walk_segment, _safe_mkdir. unfold_monad. rewrite Hs.
    cbn beta iota delta [world trace].
    destruct (Z.eqb (Z.land mode Const.o300) Const.o300);
      cbn beta iota delta [negb world trace];
      repeat next_case;
      (eexists _, _, _, _; split; [reflexivity|]; split; [trace_eq|]);
      intros f' Hr; first [discriminate Hr | injection Hr as <-; reflexivity].
  - intros st w1 Hs Hdir Hne. cbv zeta.
    apply String.eqb_neq in Hne.
    unfold walk_segment. unfold_monad. rewrite Hs.
    cbn beta iota delta [world trace]. rewrite Hdir, Hne.
    cbn beta iota delta [negb world trace]. split.
    + intros Hwx. apply Z.eqb_eq in Hwx. rewrite Hwx. reflexivity.
    + intros Hwx. apply Z.eqb_neq in Hwx. rewrite Hwx.
      cbn beta iota delta [negb world trace].
      split; intros; match goal with
        | H : os_chmod _ _ _ = _ |- _ => rewrite H
        end; reflexivity.
Qed.

(** The loop body returns normally, and leaves the function only with
    [False]. *)
Lemma walk_segment_returns gid uid mode force apath f directory
    (m : machine W) :
  exists r m',
    walk_segment gid uid mode force apath f directory m = (Returned r, m')
    /\ (forall b, r = Return b -> b = false).
Proof.
  unfold walk_segment, _safe_mkdir. unfold_monad.
  repeat next_case;
    (eexists _, _; split; [reflexivity|]);
    intros b Hr; first [discriminate Hr | injection Hr as <-; reflexivity].
Qed.

Lemma walk_returns gid uid mode force apath segments f (m : machine W) :
  exists r m',
    walk gid uid mode force apath segments f m = (Returned r, m')
    /\ (forall b, r = Return b -> b = false).
Proof.
  revert f m. induction segments as [|d rest IH]; intros f m.
  - eexists _, _. split; [reflexivity|]. intros b [=].
  - cbn [walk]. unfold bind.
    destruct (walk_segment_returns gid uid mode force apath f d m)
      as (r & m1 & -> & Hr).
    destruct r as [f'|b].
    + apply IH.
    + eexists _, _. split; [reflexivity|]. assumption.
Qed.

Lemma walk_path_return_false path gid uid mode (m : machine W) b mw :
  walk_path path gid uid mode m = (Returned (Return b), mw) -> b = false.
Proof.
  unfold walk_path, abspath_os. unfold_monad.
  destruct (negb (OsPath.isabs path)); cbn beta iota delta [world trace].
  - destruct (os_getcwd (world m)) as [[cwd|e] w1]; [|discriminate].
    match goal with |- walk ?g ?u ?md ?fo ?ap ?sg ?f ?mm = _ -> _ =>
      destruct (walk_returns g u md fo ap sg f mm) as (r & m' & -> & Hr)
    end.
    intros [= -> _]. apply Hr. reflexivity.
  - match goal with |- walk ?g ?u ?md ?fo ?ap ?sg ?f ?mm = _ -> _ =>
      destruct (walk_returns g u md fo ap sg f mm) as (r & m' & -> & Hr)
    end.
    intros [= -> _]. apply Hr. reflexivity.
Qed.

(** The reset loop applies a prefix of the pending list, whole unless a
    [chmod] fails. *)
Lemma drain_outcome pending b (m : machine W) :
  exists r m' applied tail,
    drain pending b m = (r, m')
    /\ trace m' = (trace m ++ chmod_events applied ++ tail)%list
    /\ ((exists b', r = Returned b' /\ applied = pending /\ tail = [])
        \/ (exists p md rest e,
              r = Raised (EnvironmentError (OSError e))
              /\ pending = (applied ++ (p, md) :: rest)%list
              /\ tail = [mk_event (Chmod p md) (Some e)])).
Proof.
  revert b m. induction pending as [|[p md] rest IH]; intros b m.
  - exists (Returned b), m, [], []. split; [reflexivity|].
    split; [cbn; rewrite app_nil_r; reflexivity|].
    left. eauto.
  - cbn [drain]. unfold_monad.
    destruct (os_chmod p md (world m)) as [[[]|e] w1] eqn:Hc.
    + destruct (IH p (mk_machine w1
                  (trace m ++ [mk_event (Chmod p md) None])))
        as (r & m' & applied & tail & Hd & Ht & Hcase).
      exists r, m', ((p, md) :: applied), tail.
      split; [exact Hd|]. split.
      * rewrite Ht. cbn [trace chmod_events map fst snd].
        rewrite <- app_assoc. reflexivity.
      * destruct Hcase as [(b' & -> & -> & ->)|(p' & md' & rest' & e & -> & -> & ->)].
        -- left. eauto.
        -- right. exists p', md', rest', e. auto.
    + exists (Raised (EnvironmentError (OSError e))),
        (mk_machine w1 (trace m ++ [mk_event (Chmod p md) (Some e)])),
        [], [mk_event (Chmod p md) (Some e)].
      split; [reflexivity|]. split; [reflexivity|].
      right. exists p, md, rest, e. auto.
Qed.


End EnsureDirsFacts.

(** A component that exists and is not a directory ends the walk with
    [False], after the [stat] alone. *)
Lemma walk_segment_not_a_directory {W : Type} {P : Posix W}
    gid uid mode force apath f directory (m : machine W) st w1 :
  os_stat (join (base f) directory) (world m) = (Done st, w1) ->
  S_ISDIR (st_mode st) = false ->
  walk_segment gid uid mode force apath f directory m
  = (Returned (Return false),
     mk_machine w1
       (trace m ++ [mk_event (Stat (join (base f) directory)) None])).
Proof.
  intros Hs Hd. unfold walk_segment. unfold_monad.
  rewrite Hs. cbn beta iota delta [world trace]. rewrite Hd. reflexivity.
Qed.



(** C2: the code at the failing input.  When the target itself exists
    as a regular file, [ensure_dirs] takes the branch for an existing
    target, applies [chmod] to the file and returns [True]. *)
Theorem ensure_dirs_regular_file_target :
  exists m',
    ensure_dirs "/f" (-1) (-1) 511 true file_world = (Returned true, m')
    /\ trace m' = [mk_event (Stat "/f") None; mk_event (Chmod "/f" 33279) None]
    /\ MemFs.mode_of "/f" file_world = Some 33188
    /\ S_ISDIR 33188 = false
    /\ MemFs.mode_of "/f" m' = Some 33279.
Proof.
  eexists. split; [vm_compute; reflexivity|].
  repeat split; vm_compute; reflexivity.
Qed.

(** The sibling behaviour: with the regular file as an intermediate
    component the call returns [False] and changes no mode. *)
Lemma ensure_dirs_regular_file_component :
  exists m',
    ensure_dirs "/f/sub" (-1) (-1) 511 true file_world = (Returned false, m')
    /\ List.filter is_chmod (trace m') = []
    /\ MemFs.mode_of "/f" m' = Some 33188.
Proof.
  eexists. split; [vm_compute; reflexivity|].
  split; vm_compute; reflexivity.
Qed.


(** C5: the code at the failing input.  The flag is computed from the
    directory's group id, not from its mode.  Under a set-group-id
    parent owned by group 0 the flag stays 0: no reset is recorded and
    the new directory keeps the inherited set-group-id bit (042755).
    Under a parent without the bit but owned by group 1024 the flag is
    set and the requested mode is re-applied. *)
Theorem sticky_parent_taken_from_gid :
  (Z.land (Z.lor Const.S_IFDIR 1517) Const.S_ISGID <> 0
   /\ exists f mw m',
        walk (-1) (-1) 493 false "/p/c" [""; "p"] (mk_frame "/" [] 0)
          (walk_start "/p/c" (parent_world 1517 0))
        = (Returned (Continue f), mw)
        /\ sticky_parent f = 0
        /\ ensure_dirs "/p/c" (-1) (-1) 493 true (parent_world 1517 0)
           = (Returned true, m')
        /\ List.filter is_chmod (trace m') = []
        /\ MemFs.mode_of "/p/c" m' = Some 17901)
  /\ (Z.land (Z.lor Const.S_IFDIR 493) Const.S_ISGID = 0
      /\ exists f mw m',
        walk (-1) (-1) 493 false "/p/c" [""; "p"] (mk_frame "/" [] 0)
          (walk_start "/p/c" (parent_world 493 1024))
        = (Returned (Continue f), mw)
        /\ sticky_parent f = 1024
        /\ ensure_dirs "/p/c" (-1) (-1) 493 true (parent_world 493 1024)
           = (Returned true, m')
        /\ List.filter is_chmod (trace m')
           = [mk_event (Chmod "/p/c" 493) None]).
Proof.
  split; (split; [vm_compute; congruence|]);
    eexists _, _, _; (split; [vm_compute; reflexivity|]);
    repeat split; vm_compute; reflexivity.
Qed.

(** * Further properties *)

(** ** The shape of normalised paths *)

Section NormalShape.
Import PyStr NormalForm.

Lemma normal_rooted_no_up comps : normal true comps -> ~ In ".." comps.
Proof.
  induction 1 as [| acc c Hn IH Hc Hne | acc Hr Hn IH Ho].
  - intros [].
  - intros Hin. apply in_app_or in Hin as [Hin|[Hin|[]]]; [auto|].
    apply Hne. exact Hin.
  - discriminate.
Qed.

(** In a relative normal form every ".." comes before every name. *)
Lemma normal_ups_then_names r comps :
  normal r comps ->
  exists ups names,
    comps = (repeat ".." ups ++ names)%list /\ ~ In ".." names
    /\ (r = true -> ups = 0%nat).
Proof.
  induction 1 as [| acc c Hn IH Hc Hne | acc Hr Hn IH Ho].
  - exists 0%nat, []. repeat split; auto.
  - destruct IH as (ups & names & -> & Hnames & Hups).
    exists ups, (names ++ [c])%list. split; [|split; [|exact Hups]].
    + rewrite app_assoc. reflexivity.
    + intros Hin. apply in_app_or in Hin as [Hin|[Hin|[]]]; [auto|].
      apply Hne. exact Hin.
  - destruct IH as (ups & names & -> & Hnames & Hups).
    assert (names = []) as ->.
    { destruct Ho as [Ho|Ho].
      - apply app_eq_nil in Ho. apply Ho.
      - destruct names as [|x names] using rev_ind; [reflexivity|].
        rewrite app_assoc, last_last in Ho. subst x.
        exfalso. apply Hnames. apply in_or_app. right. left. reflexivity. }
    exists (S ups), []. rewrite !app_nil_r. split; [|split].
    + change [".."] with (repeat ".." 1). rewrite <- repeat_app.
      f_equal. lia.
    + intros [].
    + intros ->. discriminate.
Qed.

(** [native_normpath] renders the normal component list with one leading
    slash for a rooted input and none otherwise. *)
Lemma native_form p :
  exists comps,
    normal (negb (Nat.eqb (OsPath.initial_slashes p) 0)) comps
    /\ native_normpath p
       = render (Nat.min 1 (OsPath.initial_slashes p)) comps.
Proof.
  destruct (String.eqb_spec p "") as [->|Hp].
  - exists []. split; [constructor|reflexivity].
  - exists (fold_left (OsPath.normpath_step (OsPath.initial_slashes p))
              (split p OsPath.sep) []).
    assert (Hnorm : normal (negb (Nat.eqb (OsPath.initial_slashes p) 0))
              (fold_left (OsPath.normpath_step (OsPath.initial_slashes p))
                 (split p OsPath.sep) []))
      by (apply fold_normal; [apply split_free|constructor]).
    split; [exact Hnorm|].
    unfold native_normpath. rewrite (normpath_unfold p Hp).
    pose proof (initial_slashes_le p) as Hle.
    set (n := OsPath.initial_slashes p) in *.
    set (comps := fold_left (OsPath.normpath_step n) (split p OsPath.sep) [])
      in *.
    pose proof (join_not_rooted _ _ Hnorm) as Hj.
    destruct n as [|[|[|n]]]; [| | |lia]; cbn [Nat.min].
    + rewrite (render_no_double 0 comps) by (auto; exact Hnorm). reflexivity.
    + rewrite (render_no_double 1 comps) by (auto; exact Hnorm). reflexivity.
    + unfold render. simpl Nat.eqb. cbv iota.
      change (repeat_char OsPath.sep 2 ++ join "/" comps)
        with (String OsPath.sep (String OsPath.sep (join "/" comps))).
      change (repeat_char OsPath.sep 1 ++ join "/" comps)
        with (String OsPath.sep (join "/" comps)).
      simpl String.eqb. cbv iota.
      assert (H2 : startswith
                     (String OsPath.sep (String OsPath.sep (join "/" comps)))
                     "//" = true)
        by (destruct (join "/" comps); reflexivity).
      rewrite H2. reflexivity.
Qed.

Lemma initial_slashes_rooted p :
  Nat.eqb (OsPath.initial_slashes p) 0 = negb (startswith p "/").
Proof.
  unfold OsPath.initial_slashes. destruct (startswith p "/"); [|reflexivity].
  destruct (startswith p "//" && negb (startswith p "///")); reflexivity.
Qed.

(** X1: the normal form.  A rooted input gives "/" followed by proper
    components joined with "/", none of them ".."; any other input
    gives some ".." followed by proper components, joined with "/", or
    "." when nothing is left.  A proper component is non-empty, is not
    ".", and holds no "/". *)
Theorem normpath_normal_form (p : string) :
  exists ups names,
    Forall component names /\ ~ In ".." names
    /\ ((startswith p "/" = true /\ ups = 0%nat
         /\ normpath p = "/" ++ join "/" names)
        \/ (startswith p "/" = false
            /\ normpath p
               = match (repeat ".." ups ++ names)%list with
                 | [] => "."
                 | comps => join "/" comps
                 end)).
Proof.
  unfold normpath. destruct (native_form p) as (comps & Hnorm & ->).
  rewrite initial_slashes_rooted in Hnorm.
  pose proof (initial_slashes_rooted p) as Hroot.
  destruct (normal_ups_then_names _ _ Hnorm) as (ups & names & -> & Hnames & Hups).
  exists ups, names. split.
  { apply normal_components in Hnorm. apply Forall_app in Hnorm. apply Hnorm. }
  split; [exact Hnames|].
  destruct (startswith p "/"); cbn [negb] in *.
  - left. rewrite (Hups eq_refl) in *. split; [reflexivity|].
    split; [reflexivity|].
    destruct (OsPath.initial_slashes p) as [|n]; [discriminate|].
    destruct n; reflexivity.
  - right. split; [reflexivity|].
    apply Nat.eqb_eq in Hroot. rewrite Hroot. cbn [Nat.min].
    apply normal_components in Hnorm.
    destruct (repeat ".." ups ++ names)%list as [|c cs]; [reflexivity|].
    destruct (join_head _ _ Hnorm) as (a & rest & Hs & _).
    unfold render. simpl Nat.eqb. cbv iota. rewrite Hs. reflexivity.
Qed.

(** X2: normalisation keeps a path rooted or relative: the result
    starts with "/" exactly when the input does. *)
Theorem normpath_keeps_rootedness (p : string) :
  startswith (normpath p) "/" = startswith p "/".
Proof.
  unfold normpath. destruct (native_form p) as (comps & Hnorm & ->).
  pose proof (initial_slashes_rooted p) as Hroot.
  pose proof (join_not_rooted _ _ Hnorm) as Hj.
  destruct (startswith p "/"); cbn [negb] in Hroot.
  - destruct (OsPath.initial_slashes p) as [|n]; [discriminate|].
    cbn [Nat.min].
    replace (render 1 comps) with (String OsPath.sep (join "/" comps))
      by reflexivity.
    rewrite startswith_sep. reflexivity.
  - apply Nat.eqb_eq in Hroot. rewrite Hroot. cbn [Nat.min].
    unfold render. simpl Nat.eqb. cbv iota.
    destruct (String.eqb_spec (join "/" comps) ""); [reflexivity|exact Hj].
Qed.

End NormalShape.


(** ** The system calls of [ensure_dirs] *)

Section TraceFacts.
Context {W : Type}.

Lemma extends_refl Q (m : machine W) : extends Q m m.
Proof. exists []. split; [rewrite app_nil_r; reflexivity|constructor]. Qed.

Lemma extends_trans Q (m1 m2 m3 : machine W) :
  extends Q m1 m2 -> extends Q m2 m3 -> extends Q m1 m3.
Proof.
  intros (e1 & H1 & F1) (e2 & H2 & F2). exists (e1 ++ e2)%list. split.
  - rewrite H2, H1, app_assoc. reflexivity.
  - apply Forall_app. split; assumption.
Qed.

Lemma extends_weaken (Q R : event -> Prop) (m m' : machine W) :
  (forall ev, Q ev -> R ev) -> extends Q m m' -> extends R m m'.
Proof.
  intros HQR (evs & H & F). exists evs. split; [exact H|].
  eapply Forall_impl; [exact F|exact HQR].
Qed.

End TraceFacts.

Lemma chown_requested_gu gid uid :
  negb (Z.eqb gid (-1)) || negb (Z.eqb uid (-1)) = true ->
  uid <> -1 \/ gid <> -1.
Proof.
  intros H. apply orb_true_iff in H as [H|H];
    apply negb_true_iff, Z.eqb_neq in H; auto.
Qed.

Lemma chown_requested_ug gid uid :
  negb (Z.eqb uid (-1)) || negb (Z.eqb gid (-1)) = true ->
  uid <> -1 \/ gid <> -1.
Proof.
  intros H. apply orb_true_iff in H as [H|H];
    apply negb_true_iff, Z.eqb_neq in H; auto.
Qed.

#[global] Hint Resolve chown_requested_gu chown_requested_ug : chown_tests.

Section WalkEvents.
Context {W : Type} {P : Posix W}.

Lemma walk_segment_events gid uid mode apath f directory (m : machine W) :
  extends (walk_event gid uid mode) m
    (snd (walk_segment gid uid mode
            (negb (Z.eqb (Z.land mode Const.o300) Const.o300))
            apath f directory m)).
Proof.
  unfold walk_segment, _safe_mkdir. unfold_monad.
  unfold walk_event.
  destruct (Z.eqb (Z.land mode Const.o300) Const.o300);
    cbn beta iota delta [negb]; repeat next_case; explicit_extends.
Qed.

Lemma walk_events gid uid mode apath segments f (m : machine W) :
  extends (walk_event gid uid mode) m
    (snd (walk gid uid mode
            (negb (Z.eqb (Z.land mode Const.o300) Const.o300))
            apath segments f m)).
Proof.
  revert f m. induction segments as [|d rest IH]; intros f m.
  - apply extends_refl.
  - cbn [walk]. unfold bind.
    pose proof (walk_segment_events gid uid mode apath f d m) as Hseg.
    destruct (walk_segment gid uid mode _ apath f d m) as [[[f'|b]|x] m1];
      cbn [snd] in *; try exact Hseg.
    eapply extends_trans; [exact Hseg|apply IH].
Qed.

Lemma walk_path_outcome path gid uid mode (m : machine W) :
  exists r m',
    walk_path path gid uid mode m = (r, m')
    /\ extends (walk_event gid uid mode) m m'
    /\ ((exists v, r = Returned v)
        \/ (OsPath.isabs path = false
            /\ exists e, r = Raised (EnvironmentError (OSError e)))).
Proof.
  unfold walk_path, abspath_os. unfold_monad.
  destruct (OsPath.isabs path); cbn beta iota delta [negb world trace].
  - match goal with |- context [walk ?g ?u ?md ?fo ?ap ?sg ?f ?mm] =>
      pose proof (walk_events g u md ap sg f mm) as Hev;
      destruct (walk_returns g u md fo ap sg f mm) as (r & m' & Hw & _)
    end.
    rewrite Hw in *. cbn [snd] in Hev. eauto 8.
  - destruct (os_getcwd (world m)) as [[cwd|e] w1].
    + match goal with |- context [walk ?g ?u ?md ?fo ?ap ?sg ?f ?mm] =>
        pose proof (walk_events g u md ap sg f mm) as Hev;
        destruct (walk_returns g u md fo ap sg f mm) as (r & m' & Hw & _)
      end.
      rewrite Hw in *. cbn [snd] in Hev.
      eexists _, _. split; [reflexivity|]. split; [|eauto].
      eapply extends_trans; [|exact Hev].
      eexists. split; [reflexivity|]. repeat constructor.
    + eexists _, _. split; [reflexivity|]. split; [|eauto].
      eexists. split; [reflexivity|]. repeat constructor.
Qed.

Lemma drain_resets_outcome gid uid mode f (m : machine W) :
  exists v m',
    drain_resets gid uid f m = (Returned v, m')
    /\ extends (walk_event gid uid mode) m m'.
Proof.
  unfold drain_resets, try_except_OSError. unfold bind at 1.
  destruct (drain_outcome (rev (resets f)) (base f) m)
    as (r & m' & applied & tail & Hd & Ht & Hcase).
  rewrite Hd.
  assert (Hext : extends (walk_event gid uid mode) m m').
  { exists (chmod_events applied ++ tail)%list. split; [exact Ht|].
    apply Forall_app. split.
    - unfold chmod_events. apply List.Forall_forall. intros ev Hin.
      apply in_map_iff in Hin as (x & <- & _). exact I.
    - destruct Hcase as [(b' & _ & _ & ->)|(p & md & rest & e & _ & _ & ->)];
        repeat constructor. }
  destruct Hcase as [(b' & -> & _ & _)|(p & md & rest & e & -> & _ & _)].
  - unfold_monad.
    destruct (negb (Z.eqb uid (-1)) || negb (Z.eqb gid (-1))) eqn:Hreq;
      cbn beta iota delta [world trace].
    + apply chown_requested_ug in Hreq.
      destruct (os_chown b' uid gid (world m')) as [[[]|e] w3];
        (eexists _, _; split; [reflexivity|]);
        (eapply extends_trans; [exact Hext|]);
        (eexists; split; [reflexivity|]);
        (apply List.Forall_cons;
         [cbn; repeat split; assumption|apply List.Forall_nil]).
    + eexists _, _. split; [reflexivity|]. exact Hext.
  - unfold_monad. eexists _, _. split; [reflexivity|]. exact Hext.
Qed.

Lemma create_body_outcome path gid uid mode (m : machine W) :
  exists r m',
    (f <-! walk_path path gid uid mode ;; drain_resets gid uid f) m = (r, m')
    /\ extends (walk_event gid uid mode) m m'
    /\ ((exists v, r = Returned v)
        \/ (OsPath.isabs path = false
            /\ exists e, r = Raised (EnvironmentError (OSError e)))).
Proof.
  unfold bind at 1.
  destruct (walk_path_outcome path gid uid mode m)
    as (r & m1 & -> & Hext & Hr).
  destruct r as [[f|b]|x].
  - destruct (drain_resets_outcome gid uid mode f m1) as (v & m2 & -> & Hext2).
    eexists _, _. split; [reflexivity|]. split; [|eauto].
    eapply extends_trans; eassumption.
  - eexists _, _. split; [reflexivity|]. split; [exact Hext|eauto].
  - eexists _, _. split; [reflexivity|]. split; [exact Hext|].
    destruct Hr as [(v & [=])|(Habs & e & [= ->])]. right. eauto.
Qed.

(** The walk branch brackets its calls between [umask(0)] and the
    [umask] that puts the old value back. *)
Lemma create_dirs_trace path gid uid mode (m : machine W) um w2 :
  os_umask 0 (world m) = (um, w2) ->
  exists r m' evs,
    create_dirs path gid uid mode m = (r, m')
    /\ trace m'
       = (trace m ++ [mk_event (Umask 0) None] ++ evs
          ++ [mk_event (Umask um) None])%list
    /\ Forall (walk_event gid uid mode) evs
    /\ ((exists b, r = Returned b)
        \/ (OsPath.isabs path = false
            /\ exists e, r = Raised (EnvironmentError (OSError e)))).
Proof.
  intros Hu. unfold create_dirs. unfold bind at 1. unfold sys_umask at 1.
  unfold syscall_total. rewrite Hu. unfold bind at 1. unfold try_finally.
  destruct (create_body_outcome path gid uid mode
              (mk_machine w2 (trace m ++ [mk_event (Umask 0) None])))
    as (r & mb & -> & (evs & Ht & Hev) & Hr).
  unfold_monad. destruct (os_umask um (world mb)) as [um' w3].
  cbn [trace] in Ht.
  destruct r as [[[]|b]|x];
    (eexists _, _, evs; split; [reflexivity|]; cbn [trace]; rewrite Ht;
     split; [rewrite <- !app_assoc; reflexivity|]; split; [exact Hev|]).
  - left. eauto.
  - left. eauto.
  - destruct Hr as [(v & [=])|(Habs & e & [= ->])]. right. eauto.
Qed.

Lemma adjust_chown_requested gid uid (st : stat_result) :
  (negb (Z.eqb gid (-1)) && negb (Z.eqb gid (st_gid st)))
  || (negb (Z.eqb uid (-1)) && negb (Z.eqb uid (st_uid st))) = true ->
  (gid <> -1 /\ gid <> st_gid st) \/ (uid <> -1 /\ uid <> st_uid st).
Proof.
  intros H. apply orb_true_iff in H as [H|H];
    apply andb_true_iff in H as [H1 H2];
    apply negb_true_iff, Z.eqb_neq in H1;
    apply negb_true_iff, Z.eqb_neq in H2; auto.
Qed.

Lemma negb_eqb_neq a b : negb (Z.eqb a b) = true -> a <> b.
Proof. intros H. apply negb_true_iff, Z.eqb_neq in H. exact H. Qed.

(** The branch for an existing target returns a boolean, makes only
    the calls of [adjust_event], and answers [True] exactly when all of
    them succeeded. *)
Lemma adjust_existing_outcome path gid uid mode minimal st (m : machine W) :
  exists b m' evs,
    adjust_existing path gid uid mode minimal st m = (Returned b, m')
    /\ trace m' = (trace m ++ evs)%list
    /\ Forall (adjust_event path gid uid mode minimal st) evs
    /\ (b = true <-> Forall succeeded evs)
    /\ (length evs <= 2)%nat.
Proof.
  unfold adjust_existing. unfold_monad. unfold adjust_event, succeeded.
  repeat next_case;
    (first
       [ eexists _, _, _; split; [reflexivity|];
         split; [cbn [trace]; trace_eq|]
       | eexists _, _, []; split; [reflexivity|];
         split; [cbn [trace]; symmetry; apply app_nil_r|] ]);
    (split;
     [ repeat (apply List.Forall_cons;
               [cbn; repeat split;
                auto using adjust_chown_requested, negb_eqb_neq|]);
       apply List.Forall_nil
     | split; [|cbn [length]; lia];
       split; intros H;
       [ first [ discriminate H
               | repeat (apply List.Forall_cons; [reflexivity|]);
                 apply List.Forall_nil ]
       | first [ reflexivity
               | exfalso;
                 repeat match goal with
                 | F : Forall _ (_ :: _) |- _ =>
                     inversion F; clear F; subst
                 end;
                 cbn in *; congruence ] ] ]).
Qed.

(** Every call of [ensure_dirs], whatever the path and the state of
    the filesystem, is a [umask] or one of the calls of [walk_event];
    the call returns a boolean, or raises the [OSError] of a relative
    path's [getcwd]. *)
Lemma ensure_dirs_events path gid uid mode minimal (m : machine W) :
  exists r m' evs,
    ensure_dirs path gid uid mode minimal m = (r, m')
    /\ trace m' = (trace m ++ evs)%list
    /\ Forall (fun ev => walk_event gid uid mode ev \/ is_umask ev = true) evs
    /\ ((exists b, r = Returned b)
        \/ (OsPath.isabs path = false
            /\ exists e, r = Raised (EnvironmentError (OSError e)))).
Proof.
  destruct (os_stat path (world m)) as [[st|e] w1] eqn:Hs.
  - rewrite (ensure_dirs_stat_ok _ _ _ _ _ _ _ _ Hs).
    destruct (adjust_existing_outcome path gid uid mode minimal st
                (mk_machine w1 (trace m ++ [mk_event (Stat path) None])))
      as (b & m' & evs & -> & Ht & Hev & _ & _).
    exists (Returned b), m', (mk_event (Stat path) None :: evs).
    split; [reflexivity|]. split.
    + rewrite Ht. cbn [trace]. rewrite <- app_assoc. reflexivity.
    + split; [|eauto]. constructor; [left; exact I|].
      eapply Forall_impl; [exact Hev|].
      intros ev Hadj. left. unfold adjust_event, walk_event in *.
      destruct (ev_call ev); try contradiction; [exact I|].
      destruct Hadj as (_ & -> & -> & [[H _]|[H _]]); auto.
  - rewrite (ensure_dirs_stat_fails _ _ _ _ _ _ _ _ Hs).
    destruct (os_umask 0 w1) as [um w2] eqn:Hu.
    destruct (create_dirs_trace path gid uid mode
                (mk_machine w1 (trace m ++ [mk_event (Stat path) (Some e)]))
                um w2 Hu)
      as (r & m' & evs & -> & Ht & Hev & Hr).
    exists r, m',
      ([mk_event (Stat path) (Some e); mk_event (Umask 0) None] ++ evs
       ++ [mk_event (Umask um) None])%list.
    split; [reflexivity|]. split.
    + rewrite Ht. cbn [trace]. rewrite <- !app_assoc. reflexivity.
    + split; [|exact Hr].
      constructor; [left; exact I|]. constructor; [right; reflexivity|].
      apply Forall_app. split.
      * eapply Forall_impl; [exact Hev|]. intros ev H. left. exact H.
      * apply List.Forall_cons; [right; reflexivity|apply List.Forall_nil].
Qed.


(** X3: on a target that exists with the requested ownership (or none
    requested) and with the requested permission bits (minimal) or
    exactly the requested mode (not minimal), [ensure_dirs] makes no
    call but the [stat] and returns [True]. *)
Theorem ensure_dirs_sufficient_is_noop path gid uid mode (minimal : bool)
    (m : machine W) st w1 :
  os_stat path (world m) = (Done st, w1) ->
  gid = -1 \/ gid = st_gid st ->
  uid = -1 \/ uid = st_uid st ->
  (if minimal then mode = Z.land (st_mode st) mode
   else mode = Z.land (st_mode st) Const.o7777) ->
  ensure_dirs path gid uid mode minimal m
  = (Returned true,
     mk_machine w1 (trace m ++ [mk_event (Stat path) None])).
Proof.
  intros Hs Hg Hu Hm. rewrite (ensure_dirs_stat_ok _ _ _ _ _ _ _ _ Hs).
  unfold adjust_existing. unfold_monad.
  assert (Hc : (negb (Z.eqb gid (-1)) && negb (Z.eqb gid (st_gid st)))
               || (negb (Z.eqb uid (-1)) && negb (Z.eqb uid (st_uid st)))
               = false).
  { apply orb_false_iff. split; apply andb_false_iff.
    - destruct Hg as [->| ->]; [left|right]; rewrite Z.eqb_refl; reflexivity.
    - destruct Hu as [->| ->]; [left|right]; rewrite Z.eqb_refl; reflexivity. }
  rewrite Hc. cbn beta iota delta [world trace].
  destruct minimal; rewrite <- Hm, Z.eqb_refl; reflexivity.
Qed.


(** X5: when the target cannot be stat'ed, [ensure_dirs] sets the umask
    to 0 before anything else and puts the value it replaced back as
    its last call, on every way out, a raised [OSError] included; no
    other [umask] call is made in between. *)
Theorem ensure_dirs_restores_umask path gid uid mode minimal
    (m : machine W) e w1 um w2 :
  os_stat path (world m) = (Errno e, w1) ->
  os_umask 0 w1 = (um, w2) ->
  exists r m' evs,
    ensure_dirs path gid uid mode minimal m = (r, m')
    /\ trace m'
       = (trace m
          ++ [mk_event (Stat path) (Some e); mk_event (Umask 0) None]
          ++ evs ++ [mk_event (Umask um) None])%list
    /\ Forall (fun ev => is_umask ev = false) evs.
Proof.
  intros Hs Hu. rewrite (ensure_dirs_stat_fails _ _ _ _ _ _ _ _ Hs).
  destruct (create_dirs_trace path gid uid mode
              (mk_machine w1 (trace m ++ [mk_event (Stat path) (Some e)]))
              um w2 Hu)
    as (r & m' & evs & -> & Ht & Hev & _).
  exists r, m', evs. split; [reflexivity|]. split.
  - rewrite Ht. cbn [trace]. rewrite <- !app_assoc. reflexivity.
  - eapply Forall_impl; [exact Hev|].
    intros ev H. unfold walk_event, is_umask in *.
    destruct (ev_call ev); try reflexivity; contradiction.
Qed.

(** X6: when neither a uid nor a gid is given (both -1), [ensure_dirs]
    never calls [chown], whatever the path and the filesystem. *)
Theorem ensure_dirs_no_chown_unless_asked path mode minimal (m : machine W) :
  exists evs,
    trace (snd (ensure_dirs path (-1) (-1) mode minimal m))
    = (trace m ++ evs)%list
    /\ Forall (fun ev => is_chown ev = false) evs.
Proof.
  destruct (ensure_dirs_events path (-1) (-1) mode minimal m)
    as (r & m' & evs & -> & Ht & Hev & _).
  exists evs. split; [exact Ht|].
  eapply Forall_impl; [exact Hev|].
  intros ev [H|H]; unfold walk_event, is_umask, is_chown in *;
    destruct (ev_call ev); try reflexivity; try discriminate.
  destruct H as (_ & _ & [H|H]); contradiction H; reflexivity.
Qed.

(** X7: every directory [ensure_dirs] creates is created with the
    requested mode, or with 0700 when the requested mode lacks owner
    write or execute; intermediate directories get no other mode than
    the leaf. *)
Theorem ensure_dirs_mkdir_modes path gid uid mode minimal (m : machine W) :
  exists evs,
    trace (snd (ensure_dirs path gid uid mode minimal m))
    = (trace m ++ evs)%list
    /\ Forall (mkdir_mode_ok mode) evs.
Proof.
  destruct (ensure_dirs_events path gid uid mode minimal m)
    as (r & m' & evs & -> & Ht & Hev & _).
  exists evs. split; [exact Ht|].
  eapply Forall_impl; [exact Hev|].
  intros ev [H|H]; unfold walk_event, is_umask, mkdir_mode_ok in *;
    destruct (ev_call ev); try exact I; try discriminate; exact H.
Qed.

(** An [OSError] leaves the segment walk only from the [getcwd] of a
    relative path, before any segment is looked at. *)
Lemma walk_path_raised path gid uid mode (m : machine W) x m' :
  walk_path path gid uid mode m = (Raised x, m') ->
  OsPath.isabs path = false
  /\ exists errno w1,
       os_getcwd (world m) = (Errno errno, w1)
       /\ x = EnvironmentError (OSError errno)
       /\ m' = mk_machine w1 (trace m ++ [mk_event Getcwd (Some errno)]).
Proof.
  unfold walk_path, abspath_os. unfold_monad.
  destruct (OsPath.isabs path); cbn beta iota delta [negb world trace].
  - match goal with |- context [walk ?g ?u ?md ?fo ?ap ?sg ?f ?mm] =>
      destruct (walk_returns g u md fo ap sg f mm) as (r & m1 & Hw & _)
    end.
    rewrite Hw. discriminate.
  - destruct (os_getcwd (world m)) as [[cwd|e] w1].
    + match goal with |- context [walk ?g ?u ?md ?fo ?ap ?sg ?f ?mm] =>
        destruct (walk_returns g u md fo ap sg f mm) as (r & m1 & Hw & _)
      end.
      rewrite Hw. discriminate.
    + intros [= <- <-]. split; [reflexivity|]. eauto.
Qed.


Lemma last_default_irrelevant {A} (l : list A) (d d' : A) :
  l <> [] -> List.last l d = List.last l d'.
Proof.
  induction l as [|x [|y l] IH]; intros Hne; [contradiction|reflexivity|].
  change (List.last (y :: l) d = List.last (y :: l) d').
  apply IH. discriminate.
Qed.

(** The reset loop hands back the path of the last reset it applied. *)
Lemma drain_returns_last pending b (m : machine W) b' m' :
  drain pending b m = (Returned b', m') ->
  b' = List.last (map fst pending) b.
Proof.
  revert b m. induction pending as [|[p md] rest IH]; intros b m.
  - intros [= <- _]. reflexivity.
  - cbn [drain]. unfold_monad.
    destruct (os_chmod p md (world m)) as [[[]|e] w1]; [|discriminate].
    intros H. apply IH in H. rewrite H. cbn [map fst].
    destruct (map fst rest) as [|s l]; [reflexivity|].
    change (List.last (s :: l) p = List.last (s :: l) b).
    apply last_default_irrelevant. discriminate.
Qed.


End WalkEvents.


(** ** The walk ends on the target *)

Section WalkTarget.
Import PyStr NormalForm.

Lemma str_app_assoc (a b c : string) : (a ++ b) ++ c = a ++ (b ++ c).
Proof.
  induction a as [|x a IH]; [reflexivity|].
  change (String x ((a ++ b) ++ c) = String x (a ++ (b ++ c))).
  f_equal. exact IH.
Qed.

Lemma str_app_not_empty (a b : string) : b <> "" -> a ++ b <> "".
Proof. destruct a; [auto|discriminate]. Qed.

Lemma endswith_free d s : free_of d s = true -> endswith_char s d = false.
Proof.
  induction s as [|c s IH]; [reflexivity|]. cbn [free_of endswith_char].
  intros H. apply andb_true_iff in H as [Hc Hs].
  destruct s; [apply negb_true_iff; exact Hc|apply IH; exact Hs].
Qed.

Lemma endswith_app a b d :
  b <> "" -> endswith_char (a ++ b) d = endswith_char b d.
Proof.
  intros Hb. induction a as [|x a IH]; [reflexivity|].
  change (String x a ++ b) with (String x (a ++ b)).
  cbn [endswith_char].
  destruct (a ++ b) eqn:E; [|exact IH].
  exfalso. eapply str_app_not_empty; eassumption.
Qed.

Lemma join_snoc (l : list string) (c : string) :
  l <> [] -> join "/" (l ++ [c]) = join "/" l ++ "/" ++ c.
Proof.
  induction l as [|x [|y l] IH]; intros Hne; [contradiction|reflexivity|].
  change (join "/" ((x :: y :: l) ++ [c]))
    with (x ++ "/" ++ join "/" ((y :: l) ++ [c])).
  rewrite IH by discriminate.
  change (join "/" (x :: y :: l)) with (x ++ "/" ++ join "/" (y :: l)).
  rewrite !str_app_assoc. reflexivity.
Qed.

Lemma component_relative c : component c -> startswith c "/" = false.
Proof.
  intros (Hne & _ & Hfree). destruct c as [|a c]; [contradiction|].
  rewrite startswith_sep. cbn in Hfree.
  apply andb_true_iff in Hfree as [Ha _]. apply negb_true_iff. exact Ha.
Qed.

Lemma join_components_no_trailing_sep c cs :
  Forall component (c :: cs) ->
  endswith_char (join "/" (c :: cs)) OsPath.sep = false.
Proof.
  revert c. induction cs as [|c' cs IH]; intros c H.
  - inversion H as [|? ? (_ & _ & Hf) _]; subst. apply endswith_free, Hf.
  - inversion H; subst.
    change (join "/" (c :: c' :: cs))
      with (c ++ String OsPath.sep (join "/" (c' :: cs))).
    rewrite endswith_app by discriminate.
    destruct (join_head c' cs) as (a & rest & E & _); [assumption|].
    cbn [endswith_char]. rewrite E. rewrite <- E. apply IH. assumption.
Qed.

(** Joining the components one at a time, from the root, rebuilds the
    rendered path. *)
Lemma fold_join_components done rest :
  done <> [] -> Forall component (done ++ rest) ->
  fold_left OsPath.join2 rest (String OsPath.sep (join "/" done))
  = String OsPath.sep (join "/" (done ++ rest)).
Proof.
  revert done. induction rest as [|c rest IH]; intros done Hne Hall.
  - rewrite app_nil_r. reflexivity.
  - cbn [fold_left].
    assert (Hstep : OsPath.join2 (String OsPath.sep (join "/" done)) c
                    = String OsPath.sep (join "/" (done ++ [c]))).
    { unfold OsPath.join2.
      apply Forall_app in Hall as [Hd Hc].
      inversion Hc as [|? ? Hcc _]; subst.
      rewrite (component_relative c Hcc). cbn [String.eqb orb].
      destruct done as [|d0 ds]; [contradiction|].
      assert (He : endswith_char
                     (String OsPath.sep (join "/" (d0 :: ds))) OsPath.sep
                   = false).
      { destruct (join_head d0 ds Hd) as (a & r & E & _).
        cbn [endswith_char]. rewrite E, <- E.
        apply join_components_no_trailing_sep. exact Hd. }
      rewrite He. rewrite join_snoc by discriminate. reflexivity. }
    rewrite Hstep.
    replace (done ++ c :: rest)%list with ((done ++ [c]) ++ rest)%list
      by (rewrite <- app_assoc; reflexivity).
    apply IH.
    + destruct done; discriminate.
    + rewrite <- app_assoc. exact Hall.
Qed.

(** For a rooted path in normal form, joining its segments from the
    root gives the path back. *)
Lemma fold_join_rooted comps :
  Forall component comps ->
  fold_left OsPath.join2 (split (String OsPath.sep (join "/" comps)) OsPath.sep)
    (String OsPath.sep "")
  = String OsPath.sep (join "/" comps).
Proof.
  intros Hall.
  replace (split (String OsPath.sep (join "/" comps)) OsPath.sep)
    with ("" :: split (join "/" comps) OsPath.sep) by reflexivity.
  cbn [fold_left].
  replace (OsPath.join2 (String OsPath.sep "") "") with (String OsPath.sep "")
    by reflexivity.
  destruct comps as [|c cs]; [reflexivity|].
  rewrite split_join
    by (eapply Forall_impl; [exact Hall|]; intros x Hx; apply Hx).
  cbn [fold_left].
  assert (Hfirst : OsPath.join2 (String OsPath.sep "") c
                   = String OsPath.sep (join "/" [c])).
  { unfold OsPath.join2. inversion Hall as [|? ? Hc _]; subst.
    rewrite (component_relative c Hc). reflexivity. }
  rewrite Hfirst. apply (fold_join_components [c] cs); [discriminate|].
  exact Hall.
Qed.

(** [os.path.normpath] of a rooted path is rooted. *)
Lemma os_normpath_rooted p :
  startswith p "/" = true -> startswith (OsPath.normpath p) "/" = true.
Proof.
  intros Hp. rewrite normpath_unfold by (intros ->; discriminate).
  pose proof (initial_slashes_rooted p) as Hr. rewrite Hp in Hr.
  destruct (OsPath.initial_slashes p) as [|n]; [discriminate|].
  unfold render. cbn [Nat.eqb].
  change (repeat_char OsPath.sep (S n)) with
    (String OsPath.sep (repeat_char OsPath.sep n)).
  cbn [String.append String.eqb]. apply startswith_sep.
Qed.

(** The target of the walk, for an absolute path, is "/" followed by
    joined proper components. *)
Lemma apath_rooted_form p :
  startswith p "/" = true ->
  exists comps,
    Forall component comps
    /\ normpath (OsPath.normpath p) = String OsPath.sep (join "/" comps).
Proof.
  intros Hp. apply os_normpath_rooted in Hp.
  unfold normpath.
  destruct (native_form (OsPath.normpath p)) as (comps & Hnorm & ->).
  exists comps. split; [eapply normal_components; exact Hnorm|].
  pose proof (initial_slashes_rooted (OsPath.normpath p)) as Hr.
  rewrite Hp in Hr.
  destruct (OsPath.initial_slashes (OsPath.normpath p)) as [|n];
    [discriminate|].
  cbn [Nat.min]. reflexivity.
Qed.

End WalkTarget.

Section WalkBase.
Context {W : Type} {P : Posix W}.

Lemma walk_segment_base gid uid mode force apath f directory
    (m : machine W) f' m' :
  walk_segment gid uid mode force apath f directory m
  = (Returned (Continue f'), m') ->
  base f' = join (base f) directory.
Proof.
  unfold walk_segment, _safe_mkdir. unfold_monad.
  repeat next_case; intros H;
    first [discriminate H | injection H as <- _; reflexivity].
Qed.

Lemma walk_base gid uid mode force apath segments f (m : machine W) f' m' :
  walk gid uid mode force apath segments f m = (Returned (Continue f'), m') ->
  base f' = fold_left join segments (base f).
Proof.
  revert f m. induction segments as [|d rest IH]; intros f m.
  - cbn. intros [= <- _]. reflexivity.
  - cbn [walk fold_left]. unfold bind.
    destruct (walk_segment gid uid mode force apath f d m)
      as [[[f1|b]|x] m1] eqn:E; try discriminate.
    intros H. apply IH in H. rewrite H.
    rewrite (walk_segment_base _ _ _ _ _ _ _ _ _ _ E). reflexivity.
Qed.

(** X10: for an absolute path, a walk that reaches the end of the
    segments stands on the normalised target: the [base] built by
    joining the segments one at a time equals [apath], which is what the
    tests [apath != base] and [base == apath] of the loop rely on. *)
Theorem walk_path_ends_on_target path gid uid mode (m : machine W) f m' :
  OsPath.isabs path = true ->
  walk_path path gid uid mode m = (Returned (Continue f), m') ->
  base f = normpath (OsPath.normpath path).
Proof.
  intros Habs. unfold walk_path, abspath_os. rewrite Habs.
  unfold_monad. cbn beta iota delta [negb].
  intros Hw. apply walk_base in Hw. rewrite Hw. cbn [base].
  destruct (apath_rooted_form path Habs) as (comps & Hall & ->).
  apply fold_join_rooted. exact Hall.
Qed.

End WalkBase.

Lemma walk_path_ends_on_target_witness :
  OsPath.isabs "/a/./b" = true
  /\ walk_path "/a/./b" (-1) (-1) 493 (walk_start "/a/./b" bare_world)
     = (Returned (Continue (mk_frame "/a/b" [] 0)),
        snd (walk_path "/a/./b" (-1) (-1) 493 (walk_start "/a/./b" bare_world)))
  /\ base (mk_frame "/a/b" [] 0) = normpath (OsPath.normpath "/a/./b").
Proof.
  assert (Habs : OsPath.isabs "/a/./b" = true) by reflexivity.
  assert (Hw : walk_path "/a/./b" (-1) (-1) 493
                 (walk_start "/a/./b" bare_world)
               = (Returned (Continue (mk_frame "/a/b" [] 0)),
                  snd (walk_path "/a/./b" (-1) (-1) 493
                         (walk_start "/a/./b" bare_world))))
    by (vm_compute; reflexivity).
  split; [exact Habs|]. split; [exact Hw|].
  exact (walk_path_ends_on_target _ _ _ _ _ _ _ Habs Hw).
Defined.

Lemma ensure_dirs_sufficient_is_noop_witness :
  os_stat "/p" (world (parent_world 493 0))
  = (Done (mk_stat 16877 0 0), world (parent_world 493 0))
  /\ ((-1 = -1 \/ -1 = 0) /\ (-1 = -1 \/ -1 = 0))
  /\ 493 = Z.land 16877 493
  /\ ensure_dirs "/p" (-1) (-1) 493 true (parent_world 493 0)
     = (Returned true,
        mk_machine (world (parent_world 493 0))
          (trace (parent_world 493 0) ++ [mk_event (Stat "/p") None])).
Proof.
  assert (Hs : os_stat "/p" (world (parent_world 493 0))
               = (Done (mk_stat 16877 0 0), world (parent_world 493 0)))
    by (vm_compute; reflexivity).
  split; [exact Hs|]. split; [split; left; reflexivity|].
  split; [reflexivity|].
  exact (ensure_dirs_sufficient_is_noop "/p" (-1) (-1) 493 true
           (parent_world 493 0) (mk_stat 16877 0 0) _ Hs
           (or_introl eq_refl) (or_introl eq_refl) eq_refl).
Defined.




Lemma ensure_dirs_restores_umask_witness :
  os_stat "/a/b" (world bare_world) = (Errno Const.ENOENT, world bare_world)
  /\ os_umask 0 (world bare_world) = (18, snd (os_umask 0 (world bare_world)))
  /\ exists r m' evs,
       ensure_dirs "/a/b" (-1) (-1) 493 true bare_world = (r, m')
       /\ trace m'
          = (trace bare_world
             ++ [mk_event (Stat "/a/b") (Some Const.ENOENT);
                 mk_event (Umask 0) None]
             ++ evs ++ [mk_event (Umask 18) None])%list
       /\ Forall (fun ev => is_umask ev = false) evs.
Proof.
  assert (Hs : os_stat "/a/b" (world bare_world)
               = (Errno Const.ENOENT, world bare_world))
    by (vm_compute; reflexivity).
  assert (Hu : os_umask 0 (world bare_world)
               = (18, snd (os_umask 0 (world bare_world))))
    by (vm_compute; reflexivity).
  split; [exact Hs|]. split; [exact Hu|].
  exact (ensure_dirs_restores_umask "/a/b" (-1) (-1) 493 true bare_world
           Const.ENOENT _ 18 _ Hs Hu).
Defined.

(** ** The lock handle over its lifetime *)

Section HandleFacts.
Context {W : Type} {P : Posix W}.

(** X11: making a handle with [create] touches nothing; without
    [create] it makes one [stat] and raises [NonExistant] when that
    fails.  The handle always starts without a descriptor. *)
Theorem FsLock_init_outcomes path (m : machine W) :
  FsLock_init path true m = (Returned (mk_FsLock path None true), m)
  /\ match os_stat path (world m) with
     | (Done _, w1) =>
         FsLock_init path false m
         = (Returned (mk_FsLock path None false),
            mk_machine w1 (trace m ++ [mk_event (Stat path) None]))
     | (Errno e, w1) =>
         FsLock_init path false m
         = (Raised (NonExistant path None),
            mk_machine w1 (trace m ++ [mk_event (Stat path) (Some e)]))
     end.
Proof.
  split; [reflexivity|].
  unfold FsLock_init, path_exists. unfold_monad.
  cbn beta iota delta [negb world trace].
  destruct (os_stat path (world m)) as [[st|e] w1]; reflexivity.
Qed.

(** On an open descriptor every change is one [flock] call on it, with
    [LOCK_NB] added when not blocking, and hands the handle back as it
    was. *)
Lemma enact_change_opened self fd flags blocking (m : machine W) :
  lock_fd self = Some fd ->
  exists r m' err,
    _enact_change self flags blocking m = (r, m')
    /\ trace m'
       = (trace m
          ++ [mk_event
                (Flock fd (if blocking then flags
                           else Z.lor flags Const.LOCK_NB)) err])%list
    /\ (forall b s, r = Returned (b, s) -> s = self).
Proof.
  intros Hfd. destruct blocking.
  - unfold _enact_change, sys_flock, syscall_raising, ret, bind.
    rewrite Hfd. cbn beta iota. rewrite Hfd.
    cbn [negb default from_option id world trace].
    destruct (os_flock fd flags (world m)) as [[[]|e] w1];
      (eexists _, _, _; split; [reflexivity|]; split; [reflexivity|]);
      intros b s [= _ <-]; reflexivity.
  - rewrite (enact_change_nonblocking self fd flags m Hfd).
    destruct (os_flock fd (Z.lor flags Const.LOCK_NB) (world m))
      as [[[]|e] w1].
    + eexists _, _, _. split; [reflexivity|]. split; [reflexivity|].
      intros b s [= _ <-]. reflexivity.
    + eexists _, _, _. split; [reflexivity|]. split; [reflexivity|].
      destruct (Z.eqb e Const.EAGAIN); intros b s [= _ <-]. reflexivity.
Qed.

(** X12: a blocking acquire on an open descriptor is one [flock]
    without [LOCK_NB]; it returns [True] when that succeeds, and when it
    fails the [IOError] leaves the method as it is -- it is not turned
    into [GenericFailed], and [EAGAIN] is not turned into [False]. *)
Theorem acquire_blocking_outcomes self fd (m : machine W) :
  lock_fd self = Some fd ->
  let outcome_of op :=
    match os_flock fd op (world m) with
    | (Done _, w1) =>
        (Returned (true, self),
         mk_machine w1 (trace m ++ [mk_event (Flock fd op) None]))
    | (Errno e, w1) =>
        (Raised (EnvironmentError (IOError e)),
         mk_machine w1 (trace m ++ [mk_event (Flock fd op) (Some e)]))
    end in
  acquire_write_lock self true m = outcome_of Const.LOCK_EX
  /\ acquire_read_lock self true m = outcome_of Const.LOCK_SH.
Proof.
  intros Hfd. cbv zeta.
  unfold acquire_write_lock, acquire_read_lock, _enact_change, sys_flock,
    syscall_raising, ret, bind.
  rewrite Hfd. cbn beta iota. rewrite Hfd.
  cbn [negb default from_option id world trace].
  split.
  - destruct (os_flock fd Const.LOCK_EX (world m)) as [[[]|e] w1];
      reflexivity.
  - destruct (os_flock fd Const.LOCK_SH (world m)) as [[[]|e] w1];
      reflexivity.
Qed.

(** X13: the descriptor is opened once.  Whenever a lock or unlock
    call returns, the handle it hands back holds a descriptor (the one
    it had, if it had one), with path and [create] unchanged; and every
    later call on that handle is a single [flock] on that descriptor --
    no second [open] -- that hands the same handle back. *)
Theorem enact_change_keeps_descriptor self flags blocking (m : machine W)
    b self' m' :
  _enact_change self flags blocking m = (Returned (b, self'), m') ->
  exists fd,
    lock_fd self' = Some fd
    /\ lock_path self' = lock_path self
    /\ lock_create self' = lock_create self
    /\ (lock_fd self = None \/ lock_fd self = Some fd)
    /\ forall flags2 blocking2,
         exists r2 m2 err,
           _enact_change self' flags2 blocking2 m' = (r2, m2)
           /\ trace m2
              = (trace m'
                 ++ [mk_event
                       (Flock fd (if blocking2 then flags2
                                  else Z.lor flags2 Const.LOCK_NB)) err])%list
           /\ (forall b2 s2, r2 = Returned (b2, s2) -> s2 = self').
Proof.
  intros Hrun.
  assert (Hself : exists fd,
             lock_fd self' = Some fd
             /\ lock_path self' = lock_path self
             /\ lock_create self' = lock_create self
             /\ (lock_fd self = None \/ lock_fd self = Some fd)).
  { destruct (lock_fd self) as [fd0|] eqn:Hfd.
    - destruct (enact_change_opened self fd0 flags blocking m Hfd)
        as (r & m1 & err & Hr & _ & Hs).
      rewrite Hr in Hrun. injection Hrun as -> _.
      rewrite (Hs b self' eq_refl). eauto 6.
    - revert Hrun.
      unfold _enact_change, _acquire_fd, sys_open, sys_flock,
        syscall_raising, try_except_OSError, try_except_IOError, raise, ret,
        bind.
      rewrite Hfd. cbn beta iota.
      destruct (lock_create self) eqn:Hc;
        match goal with |- context [os_open ?p ?fl ?w] =>
          destruct (os_open p fl w) as [[fd|e] w1]
        end;
        cbn beta iota delta [negb default from_option id world trace
                               lock_fd lock_path lock_create];
        try discriminate;
        destruct blocking; cbn beta iota delta [negb];
        match goal with |- context [os_flock ?f ?op ?w] =>
          destruct (os_flock f op w) as [[[]|e] w2]
        end;
        try discriminate;
        try (destruct (Z.eqb e Const.EAGAIN); try discriminate);
        intros [= _ <- _]; exists fd; cbn; rewrite ?Hc; auto. }
  destruct Hself as (fd & Hfd' & Hp & Hc & Hold).
  exists fd. split; [exact Hfd'|]. split; [exact Hp|]. split; [exact Hc|].
  split; [exact Hold|].
  intros flags2 blocking2.
  exact (enact_change_opened self' fd flags2 blocking2 m' Hfd').
Qed.

End HandleFacts.

Lemma acquire_blocking_outcomes_witness :
  lock_fd (mk_FsLock "/lock" (Some 3) false) = Some 3
  /\ fst (acquire_write_lock (mk_FsLock "/lock" (Some 3) false) true
            contended_world)
     = Returned (true, mk_FsLock "/lock" (Some 3) false)
  /\ fst (acquire_read_lock (mk_FsLock "/lock" (Some 4) false) true
            contended_world)
     = Raised (EnvironmentError (IOError Const.EINTR)).
Proof.
  split; [reflexivity|]. split.
  - rewrite (proj1 (acquire_blocking_outcomes
                      (mk_FsLock "/lock" (Some 3) false) 3 contended_world
                      eq_refl)).
    vm_compute. reflexivity.
  - rewrite (proj2 (acquire_blocking_outcomes
                      (mk_FsLock "/lock" (Some 4) false) 4 contended_world
                      eq_refl)).
    vm_compute. reflexivity.
Defined.

Lemma enact_change_keeps_descriptor_witness :
  _enact_change (mk_FsLock "/lock" None false) Const.LOCK_SH false lock_world
  = (Returned (true, mk_FsLock "/lock" (Some 3) false),
     snd (_enact_change (mk_FsLock "/lock" None false) Const.LOCK_SH false
            lock_world))
  /\ exists r2 m2 err,
       _enact_change (mk_FsLock "/lock" (Some 3) false) Const.LOCK_EX false
         (snd (_enact_change (mk_FsLock "/lock" None false) Const.LOCK_SH
                 false lock_world))
       = (r2, m2)
       /\ trace m2
          = (trace (snd (_enact_change (mk_FsLock "/lock" None false)
                           Const.LOCK_SH false lock_world))
             ++ [mk_event (Flock 3 (Z.lor Const.LOCK_EX Const.LOCK_NB)) err])%list
       /\ (forall b2 s2, r2 = Returned (b2, s2) ->
           s2 = mk_FsLock "/lock" (Some 3) false).
Proof.
  assert (Hrun : _enact_change (mk_FsLock "/lock" None false) Const.LOCK_SH
                   false lock_world
                 = (Returned (true, mk_FsLock "/lock" (Some 3) false),
                    snd (_enact_change (mk_FsLock "/lock" None false)
                           Const.LOCK_SH false lock_world)))
    by (vm_compute; reflexivity).
  split; [exact Hrun|].
  destruct (enact_change_keeps_descriptor _ _ _ _ _ _ _ Hrun)
    as (fd & Hfd & _ & _ & _ & Hnext).
  injection Hfd as <-.
  exact (Hnext Const.LOCK_EX false).
Defined.

(** ** Symlink resolution *)

Section SymlinkFacts.
Import PyStr NormalForm.

Lemma native_rooted p :
  startswith (native_normpath p) "/" = startswith p "/".
Proof.
  destruct (native_form p) as (comps & Hnorm & ->).
  pose proof (initial_slashes_rooted p) as Hroot.
  pose proof (join_not_rooted _ _ Hnorm) as Hj.
  destruct (startswith p "/"); cbn [negb] in Hroot.
  - destruct (OsPath.initial_slashes p) as [|n]; [discriminate|].
    cbn [Nat.min].
    replace (render 1 comps) with (String OsPath.sep (join "/" comps))
      by reflexivity.
    rewrite startswith_sep. reflexivity.
  - apply Nat.eqb_eq in Hroot. rewrite Hroot. cbn [Nat.min].
    unfold render. simpl Nat.eqb. cbv iota.
    destruct (String.eqb_spec (join "/" comps) ""); [reflexivity|exact Hj].
Qed.

Lemma native_fixed p :
  native_normpath (native_normpath p) = native_normpath p
  /\ startswith (native_normpath p) "//" = false.
Proof.
  destruct (native_shape p) as (n & comps & Hn & Hnorm & ->). split.
  - unfold native_normpath.
    rewrite normpath_render_fixed by assumption.
    rewrite render_no_double by assumption. reflexivity.
  - apply render_no_double; assumption.
Qed.

Lemma rfind_free s d i found :
  free_of d s = true -> PyStrMore.rfind_from s d i found = found.
Proof.
  revert i found. induction s as [|c s IH]; intros i found H; [reflexivity|].
  cbn [free_of] in H. apply andb_true_iff in H as [Hc Hs].
  apply negb_true_iff in Hc. cbn [PyStrMore.rfind_from]. rewrite Hc.
  apply IH. exact Hs.
Qed.

(** A path without separator has no directory part. *)
Lemma dirname_bare p : free_of OsPath.sep p = true -> os_path_dirname p = "".
Proof.
  intros H. unfold os_path_dirname, PyStrMore.rfind.
  rewrite rfind_free by exact H. reflexivity.
Qed.

(** The directory part is empty or starts like the path. *)
Lemma dirname_head p :
  os_path_dirname p = ""
  \/ exists c r r', p = String c r /\ os_path_dirname p = String c r'.
Proof.
  unfold os_path_dirname.
  set (n := Z.to_nat (PyStrMore.rfind p OsPath.sep + 1)). clearbody n.
  destruct p as [|c r]; [left; destruct n; reflexivity|].
  destruct n as [|n]; [left; reflexivity|].
  cbn [PyStrMore.slice_to].
  match goal with |- context [if ?b then _ else _] => destruct b end.
  - cbn [PyStrMore.rstrip_char].
    destruct (PyStrMore.rstrip_char (PyStrMore.slice_to n r) OsPath.sep).
    + destruct (Ascii.eqb c OsPath.sep); [left; reflexivity|].
      right. eauto.
    + right. eauto.
  - right. eauto.
Qed.

Lemma joined_with_dirname_rooted p t :
  startswith p "/" = true ->
  startswith (os_path_dirname p ++ "/" ++ t) "/" = true.
Proof.
  intros Hp. destruct (dirname_head p) as [->|(c & r & r' & -> & ->)].
  - change ("" ++ "/" ++ t) with (String OsPath.sep t).
    rewrite startswith_sep. reflexivity.
  - rewrite startswith_sep in Hp.
    change (String c r' ++ "/" ++ t) with (String c (r' ++ "/" ++ t)).
    rewrite startswith_sep. exact Hp.
Qed.

Variable readlink : string -> sysret string.
Variable getcwd : sysret string.

(** X14: [abssymlink] on a link with a non-empty target returns a
    normalised path: a fixed point of [normpath] that does not start
    with "//".  An absolute target is returned normalised, whatever the
    link's own path; and the link of an absolute path resolves to an
    absolute path. *)
Theorem abssymlink_normalised path target :
  readlink path = Done target ->
  target <> "" ->
  exists r,
    abssymlink readlink path = LinkPath r
    /\ normpath r = r
    /\ startswith r "//" = false
    /\ (startswith target "/" = true -> r = normpath target)
    /\ (startswith path "/" = true -> startswith r "/" = true).
Proof.
  intros Hl Hne. unfold abssymlink. rewrite Hl.
  destruct target as [|c t]; [contradiction|].
  pose proof (startswith_sep c t) as Hc. unfold OsPath.sep in Hc.
  destruct (Ascii.eqb c "/") eqn:E; cbn [negb].
  - eexists. split; [reflexivity|]. unfold normpath.
    split; [apply native_fixed|]. split; [apply native_fixed|].
    split; [reflexivity|]. intros _. rewrite native_rooted. exact Hc.
  - eexists. split; [reflexivity|]. unfold normpath.
    split; [apply native_fixed|]. split; [apply native_fixed|].
    split; [rewrite Hc; discriminate|].
    intros Hp. rewrite native_rooted.
    apply joined_with_dirname_rooted. exact Hp.
Qed.

(** X15: a link named without any directory part and pointing to a
    relative target is resolved against the root: the empty directory
    part is joined with "/", so [abssymlink("link")] for a target
    "t" is [normpath("/t")], an absolute path. *)
Theorem abssymlink_bare_name path target :
  free_of OsPath.sep path = true ->
  readlink path = Done target ->
  target <> "" ->
  startswith target "/" = false ->
  abssymlink readlink path = LinkPath (normpath ("/" ++ target))
  /\ startswith (normpath ("/" ++ target)) "/" = true.
Proof.
  intros Hfree Hl Hne Hrel. unfold abssymlink. rewrite Hl.
  destruct target as [|c t]; [contradiction|].
  rewrite startswith_sep in Hrel. unfold OsPath.sep in Hrel.
  rewrite Hrel. cbn [negb]. rewrite (dirname_bare path Hfree).
  split; [reflexivity|]. unfold normpath. rewrite native_rooted.
  change ("/" ++ String c t) with (String OsPath.sep (String c t)).
  rewrite startswith_sep. reflexivity.
Qed.

Lemma abspath_form_rooted path p :
  OsPath.isabs path = true
  \/ (exists cwd, getcwd = Done cwd /\ OsPath.isabs cwd = true) ->
  os_path_abspath getcwd path = Done p ->
  startswith p "/" = true.
Proof.
  intros Hroot. unfold os_path_abspath.
  destruct (OsPath.isabs path) eqn:Habs; cbn [negb].
  - intros [= <-]. apply os_normpath_rooted. exact Habs.
  - destruct Hroot as [[=]|(cwd & -> & Hcwd)].
    intros [= <-]. apply os_normpath_rooted.
    unfold OsPath.join2. unfold OsPath.isabs in Habs. rewrite Habs.
    unfold OsPath.isabs in Hcwd.
    destruct cwd as [|c cwd']; [discriminate|].
    rewrite startswith_sep in Hcwd.
    destruct (String.eqb (String c cwd') "" || endswith_char (String c cwd') OsPath.sep);
      [change (String c cwd' ++ path) with (String c (cwd' ++ path))
      |change (String c cwd' ++ "/" ++ path)
         with (String c (cwd' ++ "/" ++ path))];
      rewrite startswith_sep; exact Hcwd.
Qed.

(** X16: [abspath] returns absolute paths: for an absolute argument, or
    a relative one under an absolute working directory, every path it
    returns starts with "/". *)
Theorem abspath_is_absolute path r :
  OsPath.isabs path = true
  \/ (exists cwd, getcwd = Done cwd /\ OsPath.isabs cwd = true) ->
  abspath readlink getcwd path = LinkPath r ->
  startswith r "/" = true.
Proof.
  intros Hroot. unfold abspath.
  destruct (os_path_abspath getcwd path) as [p|e] eqn:Hp; [|discriminate].
  pose proof (abspath_form_rooted path p Hroot Hp) as Hrooted.
  unfold abssymlink.
  destruct (readlink p) as [target|e].
  - destruct target as [|c t]; [discriminate|].
    destruct (Ascii.eqb c "/") eqn:E; cbn [negb]; intros [= <-];
      unfold normpath; rewrite native_rooted.
    + rewrite startswith_sep. exact E.
    + apply joined_with_dirname_rooted. exact Hrooted.
  - destruct (negb (Z.eqb e Const.ENOENT || Z.eqb e EINVAL)); [discriminate|].
    intros [= <-]. exact Hrooted.
Qed.

(** X17: when [readlink] fails on the absolute form of the path,
    [abspath] returns that absolute form for [ENOENT] and [EINVAL] (no
    such file, not a symlink) and lets every other error through; an
    error of [getcwd] is let through as well. *)
Theorem abspath_readlink_errors path :
  match os_path_abspath getcwd path with
  | Errno e => abspath readlink getcwd path = LinkOSError e
  | Done p =>
      match readlink p with
      | Errno e =>
          abspath readlink getcwd path
          = if Z.eqb e Const.ENOENT || Z.eqb e EINVAL then LinkPath p
            else LinkOSError e
      | Done target =>
          abspath readlink getcwd path = abssymlink readlink p
      end
  end.
Proof.
  unfold abspath.
  destruct (os_path_abspath getcwd path) as [p|e]; [|reflexivity].
  unfold abssymlink.
  destruct (readlink p) as [target|e].
  - destruct target as [|c t]; [reflexivity|].
    destruct (negb (Ascii.eqb c "/")); reflexivity.
  - destruct (Z.eqb e Const.ENOENT || Z.eqb e EINVAL); reflexivity.
Qed.

End SymlinkFacts.

Lemma abssymlink_normalised_witness :
  (fun _ : string => Done "../lib64//ld.so") "/usr/bin/ld"
  = Done "../lib64//ld.so"
  /\ "../lib64//ld.so" <> ""
  /\ exists r,
       abssymlink (fun _ => Done "../lib64//ld.so") "/usr/bin/ld" = LinkPath r
       /\ normpath r = r
       /\ PyStr.startswith r "//" = false
       /\ (PyStr.startswith "../lib64//ld.so" "/" = true ->
           r = normpath "../lib64//ld.so")
       /\ (PyStr.startswith "/usr/bin/ld" "/" = true ->
           PyStr.startswith r "/" = true).
Proof.
  split; [reflexivity|]. split; [discriminate|].
  exact (abssymlink_normalised (fun _ => Done "../lib64//ld.so")
           "/usr/bin/ld" "../lib64//ld.so" eq_refl ltac:(discriminate)).
Defined.

Lemma abssymlink_bare_name_witness :
  PyStr.free_of OsPath.sep "link" = true
  /\ "target" <> ""
  /\ PyStr.startswith "target" "/" = false
  /\ abssymlink (fun _ => Done "target") "link"
     = LinkPath (normpath ("/" ++ "target"))
  /\ PyStr.startswith (normpath ("/" ++ "target")) "/" = true.
Proof.
  split; [reflexivity|]. split; [discriminate|]. split; [reflexivity|].
  exact (abssymlink_bare_name (fun _ => Done "target") "link" "target"
           eq_refl eq_refl ltac:(discriminate) eq_refl).
Defined.

Lemma abspath_is_absolute_witness :
  (OsPath.isabs "x/../y" = true
   \/ exists cwd, Done "/home/u" = Done cwd /\ OsPath.isabs cwd = true)
  /\ abspath (fun _ => Errno EINVAL) (Done "/home/u") "x/../y"
     = LinkPath "/home/u/y"
  /\ PyStr.startswith "/home/u/y" "/" = true.
Proof.
  assert (Hroot : OsPath.isabs "x/../y" = true
                  \/ exists cwd, Done "/home/u" = Done cwd
                                 /\ OsPath.isabs cwd = true)
    by (right; exists "/home/u"; split; reflexivity).
  assert (Hrun : abspath (fun _ => Errno EINVAL) (Done "/home/u") "x/../y"
                 = LinkPath "/home/u/y") by reflexivity.
  split; [exact Hroot|]. split; [exact Hrun|].
  exact (abspath_is_absolute (fun _ => Errno EINVAL) (Done "/home/u")
           "x/../y" "/home/u/y" Hroot Hrun).
Defined.

(** ** The ASCII filter *)

Lemma truthy_land_128 (c : Z) : truthy (Z.land 128 c) = Z.testbit c 7.
Proof.
  unfold truthy. destruct (Z.testbit c 7) eqn:E.
  - apply negb_true_iff, Z.eqb_neq. intros H.
    assert (Hb : Z.testbit (Z.land 128 c) 7 = true)
      by (rewrite Z.land_spec, E; reflexivity).
    rewrite H in Hb. discriminate.
  - apply negb_false_iff, Z.eqb_eq. apply Z.bits_inj'. intros i Hi.
    rewrite Z.land_spec, Z.bits_0.
    change 128 with (2 ^ 7). rewrite Z.pow2_bits_eqb by lia.
    destruct (Z.eqb_spec 7 i) as [<-|]; [rewrite E|]; reflexivity.
Qed.

(** For the ordinal of a byte, bit 7 is set exactly above 127. *)
Lemma byte_high_bit (c : Z) :
  0 <= c < 256 -> (Z.testbit c 7 = true <-> 127 < c).
Proof.
  intros Hc. rewrite Z.testbit_true by lia. change (2 ^ 7) with 128.
  split.
  - intros H. destruct (Z_lt_le_dec 127 c) as [|Hle]; [assumption|].
    rewrite Z.div_small in H by lia. discriminate.
  - intros H. replace (c / 128) with 1; [reflexivity|].
    apply Z.div_unique with (r := c - 128); lia.
Qed.

(** X18: run to its end, [_py2k_ascii_strict_filter] yields, unchanged
    and in order, the lines before the first line holding a character
    whose ordinal has bit 7 set (0x80), and raises there; when no line
    holds one it yields every line and ends normally.  No yielded line
    holds such a character. *)
Theorem ascii_strict_filter_prefix (source : list (list Z)) :
  exists rest,
    source = (fst (_py2k_ascii_strict_filter source) ++ rest)%list
    /\ Forall (Forall (fun c => Z.testbit c 7 = false))
         (fst (_py2k_ascii_strict_filter source))
    /\ if snd (_py2k_ascii_strict_filter source)
       then exists line rest',
              rest = line :: rest'
              /\ Exists (fun c => Z.testbit c 7 = true) line
       else rest = [].
Proof.
  induction source as [|line src IH].
  - exists []. repeat split; constructor.
  - cbn [_py2k_ascii_strict_filter].
    destruct (existsb (fun char => truthy (Z.land 128 char)) line) eqn:E.
    + exists (line :: src). cbn [fst snd app].
      split; [reflexivity|]. split; [constructor|].
      exists line, src. split; [reflexivity|].
      apply existsb_exists in E as (c & Hin & Hc).
      rewrite truthy_land_128 in Hc.
      apply List.Exists_exists. eauto.
    + destruct IH as (rest & Hsrc & Hall & Hend).
      destruct (_py2k_ascii_strict_filter src) as [yielded raised].
      cbn [fst snd] in *. exists rest.
      split; [cbn [app]; rewrite <- Hsrc; reflexivity|].
      split; [|exact Hend].
      constructor; [|exact Hall].
      apply List.Forall_forall. intros c Hin.
      destruct (Z.testbit c 7) eqn:Hc; [|reflexivity].
      assert (Hex : existsb (fun char => truthy (Z.land 128 char)) line = true).
      { apply existsb_exists. exists c. split; [exact Hin|].
        rewrite truthy_land_128. exact Hc. }
      rewrite Hex in E. discriminate.
Qed.

(** ** Requesting less *)

Lemma bits_subset_zero (a : Z) : bits_subset a 0 -> a = 0.
Proof.
  intros H. apply Z.bits_inj'. intros i Hi. rewrite Z.bits_0.
  destruct (Z.testbit a i) eqn:E; [|reflexivity].
  specialize (H i Hi E). rewrite Z.bits_0 in H. discriminate.
Qed.

Lemma bits_subset_trans (a b c : Z) :
  bits_subset a b -> bits_subset b c -> bits_subset a c.
Proof. intros H1 H2 i Hi Ha. apply H2, H1; assumption. Qed.

(** X19: [fallback_access] is monotone in the request: in the same
    state, when a set of bits is granted every subset of it is granted
    too. *)
Theorem fallback_access_monotone {W : Type} {P : Posix W}
    path mode mode' (m : machine W) st w1 :
  os_lstat path (world m) = (Done st, w1) ->
  bits_subset mode' mode ->
  fst (fallback_access path mode m) = Returned true ->
  fst (fallback_access path mode' m) = Returned true.
Proof.
  intros Hl Hsub.
  destruct (fallback_access_after_lstat path mode m st w1 Hl)
    as (b & m1 & -> & Hzero & Hrule).
  destruct (fallback_access_after_lstat path mode' m st w1 Hl)
    as (b' & m2 & -> & Hzero' & Hrule').
  cbn [fst]. intros [= ->]. f_equal.
  destruct (Z.eq_dec mode' 0) as [E'|E']; [auto|].
  destruct (Z.eq_dec mode 0) as [E|E].
  { subst mode. contradiction E'. apply bits_subset_zero. exact Hsub. }
  destruct (Hrule E) as (Hroot & Hown & Hgrp & Hoth).
  destruct (Hrule' E') as (Hroot' & Hown' & Hgrp' & Hoth').
  destruct (Z.eq_dec (fst (os_getuid w1)) 0) as [U|U].
  - apply (Hroot' U). intros Hx. apply (proj1 (Hroot U) eq_refl).
    apply Hsub; [lia|exact Hx].
  - destruct (Z.eq_dec (fst (os_getuid w1)) (st_uid st)) as [O|O].
    + apply (Hown' U O). eapply bits_subset_trans; [exact Hsub|].
      apply (Hown U O). reflexivity.
    + destruct (in_dec Z.eq_dec (st_gid st)
                  (fst (os_getgroups (snd (os_getuid w1))))) as [G|G].
      * apply (Hgrp' U O G). eapply bits_subset_trans; [exact Hsub|].
        apply (Hgrp U O G). reflexivity.
      * apply (Hoth' U O G). eapply bits_subset_trans; [exact Hsub|].
        apply (Hoth U O G). reflexivity.
Qed.

Lemma fallback_access_monotone_witness :
  os_lstat "/data" (world (example_0640 1000 1000))
  = (Done (mk_stat 33184 1000 50), world (example_0640 1000 1000))
  /\ bits_subset 2 6
  /\ fst (fallback_access "/data" 6 (example_0640 1000 1000)) = Returned true
  /\ fst (fallback_access "/data" 2 (example_0640 1000 1000)) = Returned true.
Proof.
  assert (Hl : os_lstat "/data" (world (example_0640 1000 1000))
               = (Done (mk_stat 33184 1000 50),
                  world (example_0640 1000 1000)))
    by (vm_compute; reflexivity).
  assert (Hsub : bits_subset 2 6).
  { intros i Hi Hb. destruct (Z.eq_dec i 1) as [->|Hne]; [reflexivity|].
    exfalso. destruct (Z_lt_le_dec i 2) as [Hlt|Hge].
    - assert (i = 0) as -> by lia. discriminate.
    - rewrite Z.bits_above_log2 in Hb; [discriminate|lia|].
      change (Z.log2 2) with 1. lia. }
  assert (Hrun : fst (fallback_access "/data" 6 (example_0640 1000 1000))
                 = Returned true) by (vm_compute; reflexivity).
  split; [exact Hl|]. split; [exact Hsub|]. split; [exact Hrun|].
  exact (fallback_access_monotone "/data" 6 2 (example_0640 1000 1000)
           (mk_stat 33184 1000 50) _ Hl Hsub Hrun).
Defined.
